(** * MediaScreen watermark upload server: a shallow embedding

    This development embeds [image-upload/server.py] and verifies the
    statements of its specification against it.

    Conventions of the embedding.
    - A Python [str] is a [string]; its characters are read as code points
      below 256.  [bytes] are [list byte].
    - The handler runs in a small state-and-exception monad over a [World]
      holding the files of the working directory and the ordered list of
      effects performed so far (file operations, responses, printed lines).
    - Whatever the standard library decides outside of the program (the
      outcome of the multipart parser on the request body, whether a file
      can be opened or written, whether a port can be bound) is input data:
      it is carried by the request and by an environment record.
    - An exception is an instance of [Exception], the class the handler
      catches.  Sending a response and printing a line always succeed: what
      becomes of a response on a broken connection is left to the HTTP
      library. *)

From Stdlib Require Import ZArith Ascii String.
From stdpp Require Import base tactics option list gmap strings pretty.

Local Open Scope Z_scope.

Abbreviation byte := Byte.byte.

(** ** Python strings *)

Module PyStr.

(** The double quote character, and a string holding just it. *)
Definition dquote_char : ascii := "034"%char.
Definition dq : string := String dquote_char "".

(** [str.lower] on code points below 256: [A-Z] and the Latin-1 capitals
    (0xC0-0xDE, the multiplication sign 0xD7 apart) move up by 32. *)
Definition lower_char (c : ascii) : ascii :=
  let n := N_of_ascii c in
  if ((65 <=? n) && (n <=? 90))%N then ascii_of_N (n + 32)
  else if ((192 <=? n) && (n <=? 222) && negb (n =? 215))%N
       then ascii_of_N (n + 32)
  else c.

Fixpoint lower (s : string) : string :=
  match s with
  | EmptyString => EmptyString
  | String c r => String (lower_char c) (lower r)
  end.

(** [s.startswith(p)] *)
Fixpoint startswith (s p : string) : bool :=
  match p, s with
  | EmptyString, _ => true
  | String _ _, EmptyString => false
  | String a p', String b s' => Ascii.eqb a b && startswith s' p'
  end.

(** [s.endswith(suffix)]: some tail of [s] is [suffix]. *)
Fixpoint endswith (s suffix : string) : bool :=
  String.eqb s suffix
  || match s with
     | EmptyString => false
     | String _ r => endswith r suffix
     end.

(** [sep.join(l)] *)
Fixpoint join (sep : string) (l : list string) : string :=
  match l with
  | [] => ""
  | [x] => x
  | x :: r => x +:+ sep +:+ join sep r
  end.

(** [str(n)] for an integer. *)
Definition str_of_int (n : Z) : string := pretty n.

(** [bool(s)]: a string is true when it is not empty. *)
Definition truthy (s : string) : bool :=
  match s with EmptyString => false | _ => true end.

(** [s.encode()] of a string of ASCII characters. *)
Definition encode (s : string) : list byte := String.list_byte_of_string s.

End PyStr.

(** ** [json.dumps] on the dictionaries the server sends *)

Module Json.

Inductive value :=
| JStr (s : string)
| JInt (n : Z).

(** A [dict] literal keeps the order in which its keys were written. *)
Definition dict := list (string * value).

Definition hex_digit (n : N) : ascii :=
  ascii_of_N (if (n <? 10)%N then 48 + n else 87 + n).

(** One character of a string, as [ensure_ascii=True] writes it: the
    two-character escapes, then [\u00XX] for what lies outside [' '..'~']. *)
Definition escape_char (c : ascii) : string :=
  let n := N_of_ascii c in
  if (n =? 34)%N then "\" +:+ PyStr.dq
  else if (n =? 92)%N then "\\"
  else if (n =? 10)%N then "\n"
  else if (n =? 13)%N then "\r"
  else if (n =? 9)%N then "\t"
  else if (n =? 12)%N then "\f"
  else if (n =? 8)%N then "\b"
  else if ((32 <=? n) && (n <=? 126))%N then String c ""
  else "\u00" +:+ String (hex_digit (n / 16)) (String (hex_digit (n mod 16)) "").

Fixpoint escape (s : string) : string :=
  match s with
  | EmptyString => ""
  | String c r => escape_char c +:+ escape r
  end.

Definition quote (s : string) : string := PyStr.dq +:+ escape s +:+ PyStr.dq.

Definition dumps_value (v : value) : string :=
  match v with
  | JStr s => quote s
  | JInt n => PyStr.str_of_int n
  end.

Definition dumps_item (kv : string * value) : string :=
  quote kv.1 +:+ ": " +:+ dumps_value kv.2.

(** [json.dumps(d)] with the default separators [", "] and [": "]. *)
Definition dumps (d : dict) : string :=
  "{" +:+ PyStr.join ", " (dumps_item <$> d) +:+ "}".

End Json.

(** ** Exceptions, effects and the world *)

(** A raised [Exception]: its class name and [str(e)]. *)
Record exn := Exn { exn_class : string; exn_text : string }.

(** What the process does to the outside, in program order. *)
Inductive Event :=
| EvOpen (path : string)                       (* [open(path, 'w')]: created or truncated *)
| EvWrite (path : string) (data : list byte)   (* [f.write(data)]: bytes appended *)
| EvClose (path : string)                      (* leaving the [with] block *)
| EvResponse (status : Z) (headers : list (string * string)) (body : list byte)
| EvSendError (code : Z) (message : string)    (* [send_error] of the HTTP library *)
| EvParse                                      (* the multipart parser reads the body *)
| EvPrint (line : string).

Record World := mkWorld {
  files : gmap string (list byte);   (* the working directory *)
  events : list Event;               (* oldest first *)
}.

(** How the operating system answers the file operations of one request. *)
Inductive write_outcome :=
| WriteOk
| WriteFails (written : nat) (e : exn).   (* [written] bytes got through first *)

Record Env := mkEnv {
  open_outcome : string → option exn;        (* [None]: the file opens for writing *)
  write_outcome_of : string → write_outcome;
  read_outcome : string → option exn;        (* failure reading an existing file *)
}.

(** ** The monad of handlers: state and exceptions *)

Definition M (A : Type) : Type := World → (exn + A) * World.

Definition ret {A} (a : A) : M A := λ w, (inr a, w).

Definition bind {A B} (m : M A) (k : A → M B) : M B := λ w,
  match m w with
  | (inr a, w') => k a w'
  | (inl e, w') => (inl e, w')
  end.

Definition raise {A} (e : exn) : M A := λ w, (inl e, w).

(** [try: m  except Exception as e: h e] *)
Definition try_except {A} (m : M A) (h : exn → M A) : M A := λ w,
  match m w with
  | (inr a, w') => (inr a, w')
  | (inl e, w') => h e w'
  end.

(** [try: m  finally: f] *)
Definition finally {A} (m : M A) (f : M unit) : M A := λ w,
  match m w with
  | (r, w') =>
      match f w' with
      | (inr _, w'') => (r, w'')
      | (inl e, w'') => (inl e, w'')
      end
  end.

Definition lift {A} (r : exn + A) : M A := λ w, (r, w).

Definition emit (ev : Event) : M unit := λ w,
  (inr tt, mkWorld (files w) (events w ++ [ev])).

Declare Scope py_scope.
Delimit Scope py_scope with py.
Notation "x <- m ;; k" := (bind m (λ x, k))
  (at level 100, m at next level, right associativity) : py_scope.
Notation "m ;;; k" := (bind m (λ _, k))
  (at level 100, right associativity) : py_scope.
Local Open Scope py_scope.

(** ** Files *)

Definition py_open_w (env : Env) (path : string) : M unit := λ w,
  match open_outcome env path with
  | Some e => (inl e, w)
  | None => (inr tt, mkWorld (<[path := []]> (files w)) (events w ++ [EvOpen path]))
  end.

Definition file_write (env : Env) (path : string) (data : list byte) : M unit := λ w,
  let old := default [] (files w !! path) in
  match write_outcome_of env path with
  | WriteOk =>
      (inr tt, mkWorld (<[path := old ++ data]> (files w))
                       (events w ++ [EvWrite path data]))
  | WriteFails n e =>
      (inl e, mkWorld (<[path := old ++ take n data]> (files w))
                      (events w ++ [EvWrite path (take n data)]))
  end.

(** [with open(path, 'w') as f: f.write(data)] *)
Definition with_open_write (env : Env) (path : string) (data : list byte) : M unit :=
  py_open_w env path ;;;
  finally (file_write env path data) (emit (EvClose path)).

(** [open(path, 'rb').read()] *)
Definition read_file (env : Env) (path : string) : M (list byte) := λ w,
  match files w !! path with
  | None => (inl (Exn "FileNotFoundError" ("[Errno 2] No such file or directory: '" +:+ path +:+ "'")), w)
  | Some content =>
      match read_outcome env path with
      | Some e => (inl e, w)
      | None => (inr content, w)
      end
  end.

Definition print (line : string) : M unit := emit (EvPrint line).

(** ** Requests *)

(** One part of a parsed multipart body, as [cgi.FieldStorage] exposes it. *)
Record FileItem := mkItem {
  item_name : string;
  item_filename : option string;          (* [None] when the part names no file *)
  item_read : exn + list byte;            (* what [item.file.read()] gives *)
}.

Definition FieldStorage := list FileItem.

(** [form[key]] is the part itself when one part has that name and the list
    of them when several have. *)
Inductive field_value :=
| Single (item : FileItem)
| Multiple (items : list FileItem).

Record Request := mkRequest {
  req_path : string;
  req_content_type : option string;       (* the [Content-Type] header, if sent *)
  req_form : exn + FieldStorage;          (* what the multipart parser makes of the body *)
}.

(** [key in form] *)
Definition form_contains (form : FieldStorage) (key : string) : bool :=
  existsb (λ it, String.eqb (item_name it) key) form.

(** [form[key]] *)
Definition form_getitem (form : FieldStorage) (key : string) : exn + field_value :=
  match filter (λ it, item_name it = key) form with
  | [] => inl (Exn "KeyError" ("'" +:+ key +:+ "'"))
  | [it] => inr (Single it)
  | its => inr (Multiple its)
  end.

(** [fileitem.filename] *)
Definition get_filename (v : field_value) : exn + option string :=
  match v with
  | Single it => inr (item_filename it)
  | Multiple _ => inl (Exn "AttributeError" "'list' object has no attribute 'filename'")
  end.

(** [fileitem.file.read()] *)
Definition get_file_read (v : field_value) : exn + list byte :=
  match v with
  | Single it => item_read it
  | Multiple _ => inl (Exn "AttributeError" "'list' object has no attribute 'file'")
  end.

(** [len(b)] *)
Definition len (b : list byte) : Z := Z.of_nat (length b).

(** ** The request handler *)

Definition watermark_path : string := "watermark.png".
Definition flag_path : string := "upload_complete.flag".
Definition allowed_extensions : list string := [".png"; ".jpg"; ".jpeg"; ".gif"; ".bmp"].
Definition max_upload_size : Z := 10 * 1024 * 1024.

(** The response [send_json_response] puts on the wire. *)
Definition json_response (status : Z) (data : Json.dict) : Event :=
  let response := PyStr.encode (Json.dumps data) in
  EvResponse status
    [("Content-type", "application/json");
     ("Content-length", PyStr.str_of_int (len response))]
    response.

Definition send_json_response (data : Json.dict) (status : Z) : M unit :=
  emit (json_response status data).

Definition send_error (code : Z) (message : string) : M unit :=
  emit (EvSendError code message).

Definition serve_file (env : Env) (filename content_type : string) : M unit :=
  try_except
    (content <- read_file env filename ;;
     emit (EvResponse 200
             [("Content-type", content_type);
              ("Content-length", PyStr.str_of_int (len content))]
             content))
    (λ e,
       if String.eqb (exn_class e) "FileNotFoundError"
       then send_error 404 ("File " +:+ filename +:+ " not found")
       else send_error 500 ("Error serving file: " +:+ exn_text e)).

(** [cgi.FieldStorage(fp=self.rfile, ...)]: the parser is run on the body. *)
Definition parse_form (req : Request) : M FieldStorage :=
  emit EvParse ;;; lift (req_form req).

(** The [try] block of [handle_upload].  Each [return] of the source ends
    its branch: the branches nest here. *)
Definition upload_body (env : Env) (req : Request) : M unit :=
  let content_type := default "" (req_content_type req) in
  if negb (PyStr.startswith content_type "multipart/form-data") then
    send_json_response [("error", Json.JStr "Invalid content type")] 400
  else
    form <- parse_form req ;;
    if negb (form_contains form "file") then
      send_json_response [("error", Json.JStr "No file uploaded")] 400
    else
      fileitem <- lift (form_getitem form "file") ;;
      fname <- lift (get_filename fileitem) ;;
      if negb (PyStr.truthy (default "" fname)) then
        send_json_response [("error", Json.JStr "No file selected")] 400
      else
        let filename := PyStr.lower (default "" fname) in
        if negb (existsb (PyStr.endswith filename) allowed_extensions) then
          send_json_response
            [("error", Json.JStr ("Invalid file type. Allowed: "
                                  +:+ PyStr.join ", " allowed_extensions))] 400
        else
          file_data <- lift (get_file_read fileitem) ;;
          if len file_data >? max_upload_size then
            send_json_response [("error", Json.JStr "File too large (max 10MB)")] 400
          else
            with_open_write env watermark_path file_data ;;;
            with_open_write env flag_path (PyStr.encode "success") ;;;
            send_json_response
              [("status", Json.JStr "success");
               ("message", Json.JStr "File uploaded successfully");
               ("filename", Json.JStr "watermark.png");
               ("size", Json.JInt (len file_data))] 200 ;;;
            print ("Upload completed: " +:+ PyStr.str_of_int (len file_data)
                   +:+ " bytes saved as watermark.png").

(** The [except Exception as e] block. *)
Definition upload_failed (e : exn) : M unit :=
  print ("Upload error: " +:+ exn_text e) ;;;
  send_json_response [("error", Json.JStr ("Server error: " +:+ exn_text e))] 500.

Definition handle_upload (env : Env) (req : Request) : M unit :=
  try_except (upload_body env req) upload_failed.

Definition do_GET (env : Env) (req : Request) : M unit :=
  if String.eqb (req_path req) "/" || String.eqb (req_path req) "/index.html" then
    serve_file env "index.html" "text/html"
  else if String.eqb (req_path req) "/status" then
    send_json_response [("status", Json.JStr "ready")] 200
  else
    send_error 404 "File not found".

Definition do_POST (env : Env) (req : Request) : M unit :=
  if String.eqb (req_path req) "/upload" then handle_upload env req
  else send_error 404 "Endpoint not found".

(** What a handler leaves behind, and what it added to the event list. *)
Definition run {A} (m : M A) (w : World) : World := (m w).2.
Definition result {A} (m : M A) (w : World) : exn + A := (m w).1.
Definition run_events {A} (m : M A) (w : World) : list Event :=
  drop (length (events w)) (events (run m w)).

(** The accept loop, one request after the other.  An exception that left a
    handler would end the loop here. *)
Inductive Method := GET | POST.

Definition handle_one (env : Env) (meth : Method) (req : Request) : M unit :=
  match meth with
  | GET => do_GET env req
  | POST => do_POST env req
  end.

Fixpoint serve (reqs : list (Env * Method * Request)) : M unit :=
  match reqs with
  | [] => ret tt
  | (env, meth, req) :: rest => handle_one env meth req ;;; serve rest
  end.

(** ** Start-up: choosing a port *)

(** What [s.bind(('', port))] does on the probe socket. *)
Inductive bind_outcome :=
| BindOk
| BindOSError                 (* caught by [except OSError] *)
| BindRaises (e : exn).       (* any other exception *)

Record Net := mkNet {
  probe_bind : Z → bind_outcome;       (* the probe socket of [find_available_port] *)
  server_bind : Z → option exn;        (* [HTTPServer(server_address, ...)] *)
}.

(** [range(a, b)] *)
Definition py_range (a b : Z) : list Z := seqZ a (b - a).

(** The [for] loop of [find_available_port]: [Some] is the [return] (or
    the exception) that leaves it, [None] is the loop running out. *)
Fixpoint probe_loop (net : Net) (ports : list Z) : option (exn + Z) :=
  match ports with
  | [] => None
  | port :: rest =>
      match probe_bind net port with
      | BindOk => Some (inr port)
      | BindOSError => probe_loop net rest
      | BindRaises e => Some (inl e)
      end
  end.

Definition find_available_port (net : Net) (start_port max_attempts : Z) : exn + Z :=
  match probe_loop net (py_range start_port (start_port + max_attempts)) with
  | Some r => r
  | None =>
      inl (Exn "RuntimeError"
             ("Could not find available port in range " +:+ PyStr.str_of_int start_port
              +:+ "-" +:+ PyStr.str_of_int (start_port + max_attempts)))
  end.

(** How [run_server] gets on, up to the call of [serve_forever]: it serves
    on a port, leaves through [sys.exit], or dies of an exception nobody
    catches. *)
Inductive startup :=
| Serving (port : Z) (printed : list string)
| Exits (code : Z) (printed : list string)
| Uncaught (e : exn).

Definition run_server (net : Net) (port : option Z) : startup :=
  match (match port with
         | None => find_available_port net 8080 100
         | Some p => inr p
         end) with
  | inl e => Uncaught e
  | inr p =>
      match server_bind net p with
      | None =>
          Serving p
            ["MediaScreen upload server starting on port " +:+ PyStr.str_of_int p;
             "Access the upload interface at: http://localhost:" +:+ PyStr.str_of_int p;
             "Press Ctrl+C to stop the server"]
      | Some e => Exits 1 ["Server error: " +:+ exn_text e]
      end
  end.

(** ** The words of the specification *)

Module Spec.

(** The extension of a file name: its suffix from the last dot on, and
    nothing when the name has no dot. *)
Fixpoint last_dot_suffix (name : string) : option string :=
  match name with
  | EmptyString => None
  | String c r =>
      match last_dot_suffix r with
      | Some e => Some e
      | None => if Ascii.eqb c "." then Some name else None
      end
  end.

Definition file_extension (name : string) : string :=
  default "" (last_dot_suffix name).

(** An extension is allowed when, in lower case, it is one of the list. *)
Definition extension_allowed (name : string) : Prop :=
  PyStr.lower (file_extension name) ∈ allowed_extensions.

(** The media type a [Content-Type] value names: what stands before the
    first semicolon, blanks at its end dropped, in lower case. *)
Fixpoint before_semicolon (v : string) : string :=
  match v with
  | EmptyString => EmptyString
  | String c r => if Ascii.eqb c ";" then EmptyString else String c (before_semicolon r)
  end.

Fixpoint strip_right (v : string) : string :=
  match v with
  | EmptyString => EmptyString
  | String c r =>
      match strip_right r with
      | EmptyString => if Ascii.is_space c then EmptyString else String c EmptyString
      | r' => String c r'
      end
  end.

Definition media_type (v : string) : string :=
  PyStr.lower (strip_right (before_semicolon v)).

Definition is_multipart_form_data (header : option string) : bool :=
  match header with
  | None => false
  | Some v => String.eqb (media_type v) "multipart/form-data"
  end.

End Spec.

(** * Vocabulary of the statements *)

(** A string without a dot. *)
Fixpoint no_dot (s : string) : bool :=
  match s with
  | EmptyString => true
  | String c r => negb (Ascii.eqb c ".") && no_dot r
  end.

(** What an effect does to the files. *)
Definition replay_event (fs : gmap string (list byte)) (ev : Event) : gmap string (list byte) :=
  match ev with
  | EvOpen p => <[p := []]> fs
  | EvWrite p d => <[p := default [] (fs !! p) ++ d]> fs
  | _ => fs
  end.

Definition replay (fs : gmap string (list byte)) (evs : list Event) : gmap string (list byte) :=
  foldl replay_event fs evs.

(** The world once the effects [evs] have happened to [w]. *)
Definition state_after (w : World) (evs : list Event) : World :=
  mkWorld (replay (files w) evs) (events w ++ evs).

(** The states an observer can see while [m] runs from [w]: one after each
    of its effects. *)
Definition reachable_during {A} (m : M A) (w s : World) : Prop :=
  ∃ pre, pre `prefix_of` run_events m w ∧ s = state_after w pre.

(** The file an effect is about. *)
Definition event_path (ev : Event) : option string :=
  match ev with
  | EvOpen p | EvWrite p _ | EvClose p => Some p
  | _ => None
  end.

Definition touches (path : string) (evs : list Event) : Prop :=
  ∃ ev, ev ∈ evs ∧ event_path ev = Some path.

(** The request was turned down after the effects [pre]: one 400 response. *)
Definition rejected (w : World) (pre : list Event) (message : string) : (exn + unit) * World :=
  (inr tt, mkWorld (files w)
             (events w ++ pre ++ [json_response 400 [("error", Json.JStr message)]])).

(** The world once the parser has run. *)
Definition parsed (w : World) : World := mkWorld (files w) (events w ++ [EvParse]).

(** What the [except] block adds. *)
Definition failure_events (e : exn) : list Event :=
  [EvPrint ("Upload error: " +:+ exn_text e);
   json_response 500 [("error", Json.JStr ("Server error: " +:+ exn_text e))]].

(** The three effects that put [data] in the watermark file. *)
Definition watermark_events (data : list byte) : list Event :=
  [EvOpen watermark_path; EvWrite watermark_path data; EvClose watermark_path].

(** The three effects that put [content] in the completion flag. *)
Definition flag_events (content : list byte) : list Event :=
  [EvOpen flag_path; EvWrite flag_path content; EvClose flag_path].

(** What a successful upload of [data] adds once the body is parsed. *)
Definition upload_events (data : list byte) : list Event :=
  watermark_events data ++ flag_events (PyStr.encode "success") ++
  [json_response 200
     [("status", Json.JStr "success");
      ("message", Json.JStr "File uploaded successfully");
      ("filename", Json.JStr "watermark.png");
      ("size", Json.JInt (len data))];
   EvPrint ("Upload completed: " +:+ PyStr.str_of_int (len data)
            +:+ " bytes saved as watermark.png")].

Definition accepted (w : World) (data : list byte) : (exn + unit) * World :=
  (inr tt, mkWorld (<[flag_path := PyStr.encode "success"]>
                      (<[watermark_path := data]> (files w)))
             (events w ++ EvParse :: upload_events data)).

(** No file operation of the request fails. *)
Definition io_ok (env : Env) : Prop :=
  open_outcome env watermark_path = None
  ∧ write_outcome_of env watermark_path = WriteOk
  ∧ open_outcome env flag_path = None
  ∧ write_outcome_of env flag_path = WriteOk.

(** The request is a multipart upload whose only part named [file] is [it]. *)
Definition carries_file (req : Request) (it : FileItem) : Prop :=
  PyStr.startswith (default "" (req_content_type req)) "multipart/form-data" = true
  ∧ ∃ form, req_form req = inr form ∧ form_getitem form "file" = inr (Single it).

(** The code's test on the name of the part. *)
Definition extension_ok (it : FileItem) : bool :=
  existsb (PyStr.endswith (PyStr.lower (default "" (item_filename it)))) allowed_extensions.

(** The last statements of the [try] block, from the first [open] on. *)
Definition store_upload (env : Env) (file_data : list byte) : M unit :=
  with_open_write env watermark_path file_data ;;;
  with_open_write env flag_path (PyStr.encode "success") ;;;
  send_json_response
    [("status", Json.JStr "success");
     ("message", Json.JStr "File uploaded successfully");
     ("filename", Json.JStr "watermark.png");
     ("size", Json.JInt (len file_data))] 200 ;;;
  print ("Upload completed: " +:+ PyStr.str_of_int (len file_data)
         +:+ " bytes saved as watermark.png").

(** Its effects and the exception it ends with, read off the answers of the
    operating system. *)
Definition store_steps (env : Env) (data : list byte) : option exn * list Event :=
  match open_outcome env watermark_path with
  | Some e => (Some e, [])
  | None =>
      match write_outcome_of env watermark_path with
      | WriteFails n e => (Some e, watermark_events (take n data))
      | WriteOk =>
          match open_outcome env flag_path with
          | Some e => (Some e, watermark_events data)
          | None =>
              match write_outcome_of env flag_path with
              | WriteFails n e =>
                  (Some e, watermark_events data
                           ++ flag_events (take n (PyStr.encode "success")))
              | WriteOk => (None, upload_events data)
              end
          end
      end
  end.

Definition outcome_of (r : option exn) : exn + unit :=
  match r with Some e => inl e | None => inr tt end.

(** The four 400 answers given once the body is parsed. *)
Definition parsed_rejections : list string :=
  ["No file uploaded"; "No file selected";
   "Invalid file type. Allowed: .png, .jpg, .jpeg, .gif, .bmp";
   "File too large (max 10MB)"].

(** Effects that leave the content of every file as it is. *)
Definition inert (ev : Event) : Prop :=
  match ev with
  | EvOpen _ | EvWrite _ _ => False
  | _ => True
  end.

(** The shapes a run of [handle_upload] can have. *)
Inductive upload_shape (env : Env) (req : Request) : list Event → Prop :=
| ShapeBadType :
    PyStr.startswith (default "" (req_content_type req)) "multipart/form-data" = false →
    upload_shape env req [json_response 400 [("error", Json.JStr "Invalid content type")]]
| ShapeRejected msg :
    msg ∈ parsed_rejections →
    upload_shape env req [EvParse; json_response 400 [("error", Json.JStr msg)]]
| ShapeRaised e :
    upload_shape env req (EvParse :: failure_events e)
| ShapeStored it data :
    carries_file req it →
    extension_ok it = true →
    item_read it = inr data →
    len data ≤ max_upload_size →
    upload_shape env req
      (EvParse :: (store_steps env data).2
         ++ match (store_steps env data).1 with
            | Some e => failure_events e
            | None => []
            end).

(** A valid upload of [data]: a multipart request whose part [file] names a
    file with an allowed extension and reads as [data]. *)
Definition valid_upload (req : Request) (data : list byte) : Prop :=
  ∃ it fname,
    carries_file req it ∧ item_filename it = Some fname
    ∧ Spec.extension_allowed fname ∧ item_read it = inr data.

(** The effects a state [s] has seen since [w]. *)
Definition new_events (w s : World) : list Event :=
  drop (length (events w)) (events s).

(** The five 400 answers of the handler. *)
Definition rejection_messages : list string :=
  "Invalid content type" :: parsed_rejections.

(** An answer to the client: a response or an error page of the library. *)
Definition is_answer (ev : Event) : bool :=
  match ev with
  | EvResponse _ _ _ | EvSendError _ _ => true
  | _ => false
  end.

Definition answers (evs : list Event) : list Event := List.filter is_answer evs.

(** An effect that is about no file but the two the upload writes. *)
Definition on_upload_files (ev : Event) : Prop :=
  match event_path ev with
  | Some p => p = watermark_path ∨ p = flag_path
  | None => True
  end.

(** The completion flag is there only beside a watermark. *)
Definition flag_has_watermark (w : World) : Prop :=
  is_Some (files w !! flag_path) → is_Some (files w !! watermark_path).

(** Inputs the statements below are tried on. *)
Module Sample.
Definition env_ok : Env := mkEnv (λ _, None) (λ _, WriteOk) (λ _, None).
Definition empty_world : World := mkWorld ∅ [].
Definition png_item (name : string) (data : list byte) : FileItem :=
  mkItem "file" (Some name) (inr data).
Definition upload (name : string) (data : list byte) : Request :=
  mkRequest "/upload" (Some "multipart/form-data; boundary=x")
    (inr [png_item name data]).
Definition three_bytes : list byte := [Byte.x89; Byte.x50; Byte.x4e].
Definition oversized : list byte := replicate (Z.to_nat 10485761) Byte.x00.
End Sample.

(** * Properties *)

(** ** Strings and extensions *)

Section Extensions.

Lemma lower_char_dot c : Ascii.eqb (PyStr.lower_char c) "." = Ascii.eqb c ".".
Proof. by destruct c as [[] [] [] [] [] [] [] []]. Qed.

Lemma last_dot_suffix_lower s :
  Spec.last_dot_suffix (PyStr.lower s) = PyStr.lower <$> Spec.last_dot_suffix s.
Proof.
  induction s as [|c r IH]; [done|]. simpl. rewrite IH.
  destruct (Spec.last_dot_suffix r); [done|]. simpl.
  rewrite lower_char_dot. by destruct (Ascii.eqb c ".").
Qed.

Lemma file_extension_lower s :
  Spec.file_extension (PyStr.lower s) = PyStr.lower (Spec.file_extension s).
Proof.
  unfold Spec.file_extension. rewrite last_dot_suffix_lower.
  by destruct (Spec.last_dot_suffix s).
Qed.

Lemma last_dot_suffix_no_dot s : no_dot s = true → Spec.last_dot_suffix s = None.
Proof.
  induction s as [|c r IH]; [done|]. simpl. intros [Hc Hr]%andb_prop.
  rewrite (IH Hr). by destruct (Ascii.eqb c ".").
Qed.

Lemma endswith_last_dot s e :
  no_dot e = true →
  PyStr.endswith s (String "." e) = true ↔ Spec.last_dot_suffix s = Some (String "." e).
Proof.
  intros He. induction s as [|c r IH]; [done|].
  cbn [PyStr.endswith Spec.last_dot_suffix]. rewrite orb_true_iff, IH. split.
  - intros [Heq | Hr].
    + apply String.eqb_eq in Heq. simplify_eq.
      by rewrite (last_dot_suffix_no_dot _ He).
    + by rewrite Hr.
  - destruct (Spec.last_dot_suffix r) as [x|]; [by right|].
    destruct (Ascii.eqb c "."); [|done]. intros ?; simplify_eq. left. apply String.eqb_refl.
Qed.

Lemma endswith_allowed s ext :
  ext ∈ allowed_extensions →
  PyStr.endswith s ext = true ↔ Spec.last_dot_suffix s = Some ext.
Proof.
  unfold allowed_extensions. rewrite !elem_of_cons, elem_of_nil.
  intros [->|[->|[->|[->|[->|[]]]]]]; by apply endswith_last_dot.
Qed.

(** The test of the source, [any(filename.endswith(ext) ...)] on the
    lowered name, is the test on the extension of the name. *)
Lemma extension_check_refines fname :
  existsb (PyStr.endswith (PyStr.lower fname)) allowed_extensions = true
  ↔ Spec.extension_allowed fname.
Proof.
  unfold Spec.extension_allowed. rewrite <- file_extension_lower, existsb_exists.
  unfold Spec.file_extension. split.
  - intros (ext & Hin%list_elem_of_In & Hend).
    apply (endswith_allowed _ _ Hin) in Hend. by rewrite Hend.
  - intros Hin. destruct (Spec.last_dot_suffix (PyStr.lower fname)) as [ext|] eqn:E.
    + exists ext. split; [by apply list_elem_of_In|]. by apply endswith_allowed.
    + simpl in Hin. unfold allowed_extensions in Hin.
      rewrite !elem_of_cons, elem_of_nil in Hin.
      destruct Hin as [H|[H|[H|[H|[H|[]]]]]]; discriminate H.
Qed.

Lemma extension_check_false fname :
  existsb (PyStr.endswith (PyStr.lower fname)) allowed_extensions = false
  ↔ ¬ Spec.extension_allowed fname.
Proof. rewrite <- extension_check_refines. by destruct (existsb _ _). Qed.

Lemma extension_allowed_nonempty fname :
  Spec.extension_allowed fname → PyStr.truthy fname = true.
Proof.
  destruct fname; [|done]. unfold Spec.extension_allowed, allowed_extensions. simpl.
  rewrite !elem_of_cons, elem_of_nil.
  intros [H|[H|[H|[H|[H|[]]]]]]; discriminate H.
Qed.

End Extensions.

(** ** States passed through while a request is handled *)


Lemma state_after_app w a b : state_after (state_after w a) b = state_after w (a ++ b).
Proof. unfold state_after, replay. simpl. by rewrite foldl_app, app_assoc. Qed.

Lemma run_events_state_after {A} (m : M A) w evs :
  run m w = state_after w evs → run_events m w = evs.
Proof. unfold run_events. intros ->. simpl. by rewrite drop_app_length. Qed.

(** ** The upload handler, branch by branch *)

(** Membership in a list that is written out. *)
Ltac in_list :=
  repeat first [ apply list_elem_of_here | apply list_elem_of_further ].

Ltac unfold_monad :=
  unfold upload_failed, parse_form, with_open_write, try_except, finally, bind, lift,
    send_json_response, print, emit, py_open_w, file_write.

Lemma paths_differ : flag_path ≠ watermark_path.
Proof. done. Qed.

Lemma store_upload_run env data w :
  store_upload env data w
  = (outcome_of (store_steps env data).1, state_after w (store_steps env data).2).
Proof.
  unfold store_upload, store_steps, state_after. unfold_monad.
  destruct (open_outcome env watermark_path); simpl.
  { by rewrite app_nil_r; destruct w. }
  destruct (write_outcome_of env watermark_path); simpl.
  2: { by rewrite <- !app_assoc. }
  destruct (open_outcome env flag_path); simpl.
  { by rewrite <- !app_assoc. }
  destruct (write_outcome_of env flag_path); simpl; by rewrite <- !app_assoc.
Qed.

Lemma getitem_contains form key v :
  form_getitem form key = inr v → form_contains form key = true.
Proof.
  unfold form_getitem, form_contains. intros H.
  destruct (filter _ form) as [|it l] eqn:E; [done|].
  assert (it ∈ filter (λ it, item_name it = key) form) as Hin by (rewrite E; left).
  apply list_elem_of_filter in Hin as [Hn Hin].
  apply existsb_exists. exists it. split; [by apply list_elem_of_In|].
  by apply String.eqb_eq.
Qed.

Lemma extension_ok_truthy it :
  extension_ok it = true → PyStr.truthy (default "" (item_filename it)) = true.
Proof. intros H. by apply extension_allowed_nonempty, extension_check_refines. Qed.

Section Branches.
Context (env : Env) (req : Request) (w : World).

Local Opaque allowed_extensions max_upload_size watermark_path flag_path
  json_response PyStr.lower PyStr.endswith PyStr.truthy PyStr.startswith
  PyStr.encode PyStr.str_of_int existsb replay.

Lemma handle_of_return w' :
  upload_body env req w = (inr tt, w') → handle_upload env req w = (inr tt, w').
Proof. unfold handle_upload, try_except. by intros ->. Qed.

Lemma handle_of_raise e w' :
  upload_body env req w = (inl e, w') →
  handle_upload env req w
  = (inr tt, mkWorld (files w') (events w' ++ failure_events e)).
Proof.
  unfold handle_upload, try_except. intros ->. unfold_monad.
  unfold failure_events. simpl. by rewrite <- app_assoc.
Qed.

Lemma body_rejects_content_type :
  PyStr.startswith (default "" (req_content_type req)) "multipart/form-data" = false →
  upload_body env req w = rejected w [] "Invalid content type".
Proof. intros H. unfold upload_body, rejected. unfold_monad. by rewrite H. Qed.

Lemma body_rejects_no_file form :
  PyStr.startswith (default "" (req_content_type req)) "multipart/form-data" = true →
  req_form req = inr form →
  form_contains form "file" = false →
  upload_body env req w = rejected w [EvParse] "No file uploaded".
Proof.
  intros H1 H2 H3. unfold upload_body, rejected. unfold_monad.
  rewrite H1, H2. simpl. rewrite H3. simpl. by rewrite <- app_assoc.
Qed.

Lemma body_rejects_no_filename it :
  carries_file req it →
  PyStr.truthy (default "" (item_filename it)) = false →
  upload_body env req w = rejected w [EvParse] "No file selected".
Proof.
  intros (H1 & form & H2 & H3) H4. unfold upload_body, rejected.
  unfold_monad. rewrite H1, H2. simpl. rewrite (getitem_contains _ _ _ H3), H3. simpl.
  rewrite H4. simpl. by rewrite <- app_assoc.
Qed.

Lemma body_rejects_extension it :
  carries_file req it →
  PyStr.truthy (default "" (item_filename it)) = true →
  extension_ok it = false →
  upload_body env req w
  = rejected w [EvParse] "Invalid file type. Allowed: .png, .jpg, .jpeg, .gif, .bmp".
Proof.
  intros (H1 & form & H2 & H3) H4 H5. unfold upload_body, rejected.
  unfold extension_ok in H5.
  unfold_monad. rewrite H1, H2. simpl. rewrite (getitem_contains _ _ _ H3), H3. simpl.
  rewrite H4, H5. simpl. by rewrite <- app_assoc.
Qed.

Lemma body_rejects_too_large it data :
  carries_file req it →
  extension_ok it = true →
  item_read it = inr data →
  len data > max_upload_size →
  upload_body env req w = rejected w [EvParse] "File too large (max 10MB)".
Proof.
  intros (H1 & form & H2 & H3) H5 H6 H7. unfold upload_body, rejected.
  pose proof (extension_ok_truthy _ H5) as H4. unfold extension_ok in H5.
  unfold_monad. rewrite H1, H2. simpl. rewrite (getitem_contains _ _ _ H3), H3. simpl.
  rewrite H4, H5, H6. simpl. rewrite (proj2 (Z.gtb_gt _ _) H7). simpl.
  by rewrite <- app_assoc.
Qed.

Lemma body_stores it data :
  carries_file req it →
  extension_ok it = true →
  item_read it = inr data →
  len data ≤ max_upload_size →
  upload_body env req w = store_upload env data (parsed w).
Proof.
  intros (H1 & form & H2 & H3) H5 H6 H7. unfold upload_body.
  pose proof (extension_ok_truthy _ H5) as H4. unfold extension_ok in H5.
  unfold parse_form, bind at 1 2 3 4 5. unfold emit, lift.
  rewrite H1, H2. simpl. rewrite (getitem_contains _ _ _ H3), H3. simpl.
  rewrite H4, H5, H6. simpl.
  destruct (len data >? max_upload_size) eqn:E; [apply Z.gtb_gt in E; lia|].
  reflexivity.
Qed.

(** Every run of the [try] block is of one of four kinds. *)
Lemma upload_body_cases :
  (PyStr.startswith (default "" (req_content_type req)) "multipart/form-data" = false
   ∧ upload_body env req w = rejected w [] "Invalid content type")
  ∨ (∃ msg, msg ∈ parsed_rejections ∧ upload_body env req w = rejected w [EvParse] msg)
  ∨ (∃ e, upload_body env req w = (inl e, parsed w))
  ∨ (∃ it data, carries_file req it ∧ extension_ok it = true
                ∧ item_read it = inr data ∧ len data ≤ max_upload_size
                ∧ upload_body env req w = store_upload env data (parsed w)).
Proof.
  destruct (PyStr.startswith (default "" (req_content_type req)) "multipart/form-data")
    eqn:H1; [|left; split; [done|by apply body_rejects_content_type]].
  right.
  destruct (req_form req) as [e|form] eqn:H2.
  { right; left. exists e. unfold upload_body. unfold_monad. by rewrite H1, H2. }
  destruct (form_contains form "file") eqn:H3.
  2: { left. eexists; split; [|by eapply body_rejects_no_file].
       unfold parsed_rejections. in_list. }
  destruct (form_getitem form "file") as [e|[it|its]] eqn:H4.
  { right; left. exists e. unfold upload_body. unfold_monad.
    rewrite H1, H2. simpl. by rewrite H3, H4. }
  2: { right; left. eexists. unfold upload_body. unfold_monad.
       rewrite H1, H2. simpl. by rewrite H3, H4. }
  assert (carries_file req it) as Hc by (split; eauto).
  destruct (PyStr.truthy (default "" (item_filename it))) eqn:H5.
  2: { left. eexists; split; [|by eapply body_rejects_no_filename].
       unfold parsed_rejections. in_list. }
  destruct (extension_ok it) eqn:H6.
  2: { left. eexists; split; [|by eapply body_rejects_extension].
       unfold parsed_rejections. in_list. }
  destruct (item_read it) as [e|data] eqn:H7.
  { right; left. exists e. unfold upload_body. unfold extension_ok in H6. unfold_monad.
    rewrite H1, H2. simpl. rewrite H3, H4. simpl. by rewrite H5, H6, H7. }
  destruct (decide (len data ≤ max_upload_size)) as [Hle|Hgt].
  - right; right. exists it, data. split_and!; try done. by apply (body_stores it).
  - left. eexists; split; [|apply (body_rejects_too_large it data); auto; lia].
    unfold parsed_rejections. in_list.
Qed.

End Branches.

(** ** Every run of the handler, as a list of effects *)

Lemma replay_inert fs evs : Forall inert evs → replay fs evs = fs.
Proof.
  unfold replay. induction 1 as [|ev evs Hev _ IH]; [done|].
  simpl. by destruct ev.
Qed.

Lemma state_after_inert w evs :
  Forall inert evs → state_after w evs = mkWorld (files w) (events w ++ evs).
Proof. intros H. unfold state_after. by rewrite replay_inert. Qed.

Lemma failure_events_inert e : Forall inert (failure_events e).
Proof. by repeat constructor. Qed.

Lemma parsed_state_after w : parsed w = state_after w [EvParse].
Proof. done. Qed.

(** The handler always returns, and the world it leaves is the one its
    effects make. *)
Lemma handle_upload_run env req w :
  ∃ evs, upload_shape env req evs ∧ handle_upload env req w = (inr tt, state_after w evs).
Proof.
  destruct (upload_body_cases env req w)
    as [[Hct Hb] | [(msg & Hmsg & Hb) | [(e & Hb) | (it & data & Hc & Hx & Hr & Hl & Hb)]]].
  - eexists. split; [by apply ShapeBadType|].
    rewrite (handle_of_return _ _ _ _ Hb), state_after_inert; [done|].
    by repeat constructor.
  - eexists. split; [by apply ShapeRejected|].
    rewrite (handle_of_return _ _ _ _ Hb), state_after_inert; [done|].
    by repeat constructor.
  - exists (EvParse :: failure_events e). split; [apply ShapeRaised|].
    rewrite (handle_of_raise _ _ _ _ _ Hb), state_after_inert; [|by repeat constructor].
    unfold parsed. simpl. by rewrite <- app_assoc.
  - eexists. split; [by apply (ShapeStored _ _ it data)|].
    rewrite store_upload_run in Hb.
    destruct (store_steps env data) as [[e|] evs]; simpl in Hb |- *.
    + rewrite (handle_of_raise _ _ _ _ _ Hb). f_equal.
      rewrite <- (state_after_inert _ _ (failure_events_inert e)).
      by rewrite parsed_state_after, !state_after_app.
    + rewrite (handle_of_return _ _ _ _ Hb), app_nil_r. f_equal.
      by rewrite parsed_state_after, state_after_app.
Qed.

Lemma handle_upload_returns env req w : result (handle_upload env req) w = inr tt.
Proof. unfold result. by destruct (handle_upload_run env req w) as (evs & _ & ->). Qed.

Lemma handle_upload_events env req w evs :
  handle_upload env req w = (inr tt, state_after w evs) →
  run_events (handle_upload env req) w = evs.
Proof. intros H. apply run_events_state_after. unfold run. by rewrite H. Qed.

(** ** Uploads *)

Lemma extension_ok_spec it fname :
  item_filename it = Some fname →
  extension_ok it = true ↔ Spec.extension_allowed fname.
Proof. intros H. unfold extension_ok. rewrite H. apply extension_check_refines. Qed.

Lemma handle_upload_accepts env req w data :
  valid_upload req data → len data ≤ max_upload_size → io_ok env →
  handle_upload env req w = accepted w data.
Proof.
  intros (it & fname & Hc & Hf & Hx & Hr) Hl (O1 & O2 & O3 & O4).
  apply (extension_ok_spec _ _ Hf) in Hx.
  apply handle_of_return.
  rewrite (body_stores env req w it data Hc Hx Hr Hl), store_upload_run.
  unfold store_steps. rewrite O1, O2, O3, O4. unfold accepted, state_after, parsed.
  simpl. rewrite lookup_insert_eq, insert_insert_eq. simpl.
  rewrite lookup_insert_eq, insert_insert_eq. simpl.
  by rewrite <- app_assoc.
Qed.

Lemma sample_env_ok_io : io_ok Sample.env_ok.
Proof. by repeat split. Defined.

Lemma sample_upload_valid data : valid_upload (Sample.upload "Logo.PNG" data) data.
Proof.
  exists (Sample.png_item "Logo.PNG" data), "Logo.PNG". split_and!; try reflexivity.
  - split; [reflexivity|]. by eexists.
  - unfold Spec.extension_allowed. vm_compute. apply list_elem_of_here.
Defined.




(** The body of the 200 response to an upload of three bytes, as sent. *)
Lemma success_body_three_bytes :
  let q s := PyStr.dq +:+ s +:+ PyStr.dq in
  Json.dumps
    [("status", Json.JStr "success");
     ("message", Json.JStr "File uploaded successfully");
     ("filename", Json.JStr "watermark.png");
     ("size", Json.JInt (len Sample.three_bytes))]
  = "{" +:+ q "status" +:+ ": " +:+ q "success" +:+ ", "
        +:+ q "message" +:+ ": " +:+ q "File uploaded successfully" +:+ ", "
        +:+ q "filename" +:+ ": " +:+ q "watermark.png" +:+ ", "
        +:+ q "size" +:+ ": 3}".
Proof. reflexivity. Qed.

(** C3. An upload whose payload exceeds 10,485,760 bytes is answered 400
    with the body {"error": "File too large (max 10MB)"}; the payload was read
    in full before the test, no file operation happens and watermark.png is
    as it was. *)
Theorem oversized_upload_is_rejected env req w data :
  valid_upload req data →
  len data > 10485760 →
  handle_upload env req w
  = (inr tt, mkWorld (files w)
               (events w ++ [EvParse;
                             json_response 400
                               [("error", Json.JStr "File too large (max 10MB)")]]))
  ∧ files (run (handle_upload env req) w) !! watermark_path = files w !! watermark_path.
Proof.
  intros (it & fname & Hc & Hf & Hx & Hr) Hl.
  apply (extension_ok_spec _ _ Hf) in Hx.
  assert (handle_upload env req w = rejected w [EvParse] "File too large (max 10MB)") as H.
  { apply handle_of_return. by apply (body_rejects_too_large env req w it data). }
  unfold run. by rewrite H.
Qed.

Lemma oversized_upload_is_rejected_witness :
  handle_upload Sample.env_ok (Sample.upload "Logo.PNG" Sample.oversized) Sample.empty_world
  = (inr tt, mkWorld ∅
               ([] ++ [EvParse;
                       json_response 400
                         [("error", Json.JStr "File too large (max 10MB)")]]))
  ∧ files (run (handle_upload Sample.env_ok (Sample.upload "Logo.PNG" Sample.oversized))
             Sample.empty_world) !! watermark_path = None.
Proof.
  apply (oversized_upload_is_rejected Sample.env_ok
           (Sample.upload "Logo.PNG" Sample.oversized) Sample.empty_world Sample.oversized).
  - apply sample_upload_valid.
  - unfold len, Sample.oversized. rewrite length_replicate. lia.
Defined.

(** C5. An upload whose file name has an extension that, in lower case, is
    not one of .png, .jpg, .jpeg, .gif, .bmp is answered 400 with a message
    listing the allowed extensions; neither watermark.png nor
    upload_complete.flag is touched and the files are as they were. *)
Theorem bad_extension_is_rejected env req w it fname :
  carries_file req it →
  item_filename it = Some fname →
  fname ≠ "" →
  ¬ Spec.extension_allowed fname →
  handle_upload env req w
  = (inr tt, mkWorld (files w)
               (events w ++ [EvParse;
                             json_response 400
                               [("error", Json.JStr
                                   "Invalid file type. Allowed: .png, .jpg, .jpeg, .gif, .bmp")]]))
  ∧ files (run (handle_upload env req) w) = files w
  ∧ ¬ touches watermark_path (run_events (handle_upload env req) w)
  ∧ ¬ touches flag_path (run_events (handle_upload env req) w).
Proof.
  intros Hc Hf Hne Hx.
  assert (extension_ok it = false) as Hx'.
  { destruct (extension_ok it) eqn:E; [|done]. by apply (extension_ok_spec _ _ Hf) in E. }
  assert (PyStr.truthy (default "" (item_filename it)) = true) as Ht.
  { rewrite Hf. by destruct fname. }
  pose proof (handle_of_return _ _ _ _ (body_rejects_extension env req w it Hc Ht Hx')) as H.
  unfold run_events, run. rewrite H. unfold rejected. simpl. split_and!; try done.
  - rewrite drop_app_length. intros (ev & Hin & Hp).
    apply elem_of_cons in Hin as [->|Hin]; [done|].
    by apply list_elem_of_singleton in Hin as ->.
  - rewrite drop_app_length. intros (ev & Hin & Hp).
    apply elem_of_cons in Hin as [->|Hin]; [done|].
    by apply list_elem_of_singleton in Hin as ->.
Qed.

Lemma bad_extension_is_rejected_witness :
  let req := Sample.upload "notes.PNG.txt" Sample.three_bytes in
  handle_upload Sample.env_ok req Sample.empty_world
  = (inr tt, mkWorld ∅
               ([] ++ [EvParse;
                       json_response 400
                         [("error", Json.JStr
                             "Invalid file type. Allowed: .png, .jpg, .jpeg, .gif, .bmp")]]))
  ∧ files (run (handle_upload Sample.env_ok req) Sample.empty_world) = ∅
  ∧ ¬ touches watermark_path (run_events (handle_upload Sample.env_ok req) Sample.empty_world)
  ∧ ¬ touches flag_path (run_events (handle_upload Sample.env_ok req) Sample.empty_world).
Proof.
  apply (bad_extension_is_rejected Sample.env_ok
           (Sample.upload "notes.PNG.txt" Sample.three_bytes) Sample.empty_world
           (Sample.png_item "notes.PNG.txt" Sample.three_bytes) "notes.PNG.txt").
  - split; [reflexivity|]. by eexists.
  - reflexivity.
  - discriminate.
  - unfold Spec.extension_allowed. vm_compute. intros H.
    repeat (apply elem_of_cons in H as [H|H]; [discriminate H|]).
    by apply elem_of_nil in H.
Defined.

(** The message of C5 is the one the source builds from its list. *)
Lemma extension_message :
  "Invalid file type. Allowed: " +:+ PyStr.join ", " allowed_extensions
  = "Invalid file type. Allowed: .png, .jpg, .jpeg, .gif, .bmp".
Proof. reflexivity. Qed.

(** C4, as the code has it.  A POST /upload whose Content-Type header is
    absent or does not start with the text multipart/form-data is answered
    400 with the body {"error": "Invalid content type"}; the parser is not
    run and no file is touched. *)
Theorem bad_content_type_is_rejected env req w :
  req_path req = "/upload" →
  PyStr.startswith (default "" (req_content_type req)) "multipart/form-data" = false →
  do_POST env req w
  = (inr tt, mkWorld (files w)
               (events w ++ [json_response 400
                               [("error", Json.JStr "Invalid content type")]]))
  ∧ (EvParse ∉ run_events (do_POST env req) w)
  ∧ (∀ path, ¬ touches path (run_events (do_POST env req) w)).
Proof.
  intros Hpath Hct.
  pose proof (handle_of_return _ _ _ _ (body_rejects_content_type env req w Hct)) as H.
  unfold run_events, run, do_POST. rewrite Hpath. simpl. rewrite H.
  unfold rejected. simpl. rewrite drop_app_length. split_and!; [done| |].
  - intros Hin%list_elem_of_singleton. discriminate Hin.
  - intros path (ev & Hin%list_elem_of_singleton & Hp). by subst ev.
Qed.

Lemma bad_content_type_is_rejected_witness :
  let req := mkRequest "/upload" (Some "application/json") (inr []) in
  do_POST Sample.env_ok req Sample.empty_world
  = (inr tt, mkWorld ∅ ([] ++ [json_response 400
                                 [("error", Json.JStr "Invalid content type")]]))
  ∧ (EvParse ∉ run_events (do_POST Sample.env_ok req) Sample.empty_world)
  ∧ (∀ path, ¬ touches path (run_events (do_POST Sample.env_ok req) Sample.empty_world)).
Proof.
  apply (bad_content_type_is_rejected Sample.env_ok
           (mkRequest "/upload" (Some "application/json") (inr [])) Sample.empty_world);
    reflexivity.
Defined.

(** An absent header is among the rejected ones. *)
Lemma absent_content_type_fails_test req :
  req_content_type req = None →
  PyStr.startswith (default "" (req_content_type req)) "multipart/form-data" = false.
Proof. by intros ->. Qed.

(** C4 fails as it is written: the header [multipart/form-datax; boundary=x]
    does not name the type multipart/form-data, yet the request passes the
    test of the code, its body is parsed and the upload is stored and
    answered 200. *)
Lemma content_type_prefix_is_accepted :
  let header := "multipart/form-datax; boundary=x" in
  let req := mkRequest "/upload" (Some header)
               (inr [Sample.png_item "Logo.PNG" Sample.three_bytes]) in
  Spec.is_multipart_form_data (Some header) = false
  ∧ Spec.media_type header = "multipart/form-datax"
  ∧ run_events (do_POST Sample.env_ok req) Sample.empty_world
    = EvParse :: upload_events Sample.three_bytes
  ∧ files (run (do_POST Sample.env_ok req) Sample.empty_world) !! watermark_path
    = Some Sample.three_bytes.
Proof. by vm_compute. Qed.

(** C6. Every GET of /status is answered 200, with the content type
    application/json and the body {"status": "ready"}, character for
    character, and nothing else happens. *)
Theorem status_is_ready env req w :
  req_path req = "/status" →
  do_GET env req w
  = (inr tt, mkWorld (files w)
               (events w ++
                  [EvResponse 200
                     [("Content-type", "application/json"); ("Content-length", "19")]
                     (PyStr.encode ("{" +:+ PyStr.dq +:+ "status" +:+ PyStr.dq +:+ ": "
                                    +:+ PyStr.dq +:+ "ready" +:+ PyStr.dq +:+ "}"))])).
Proof. intros H. unfold do_GET. by rewrite H. Qed.

Lemma status_is_ready_witness :
  do_GET Sample.env_ok (mkRequest "/status" None (inr [])) Sample.empty_world
  = (inr tt, mkWorld ∅
               ([] ++
                  [EvResponse 200
                     [("Content-type", "application/json"); ("Content-length", "19")]
                     (PyStr.encode ("{" +:+ PyStr.dq +:+ "status" +:+ PyStr.dq +:+ ": "
                                    +:+ PyStr.dq +:+ "ready" +:+ PyStr.dq +:+ "}"))])).
Proof.
  apply (status_is_ready Sample.env_ok (mkRequest "/status" None (inr []))
           Sample.empty_world).
  reflexivity.
Defined.

(** ** Order of the file effects *)

Lemma new_events_state_after w evs : new_events w (state_after w evs) = evs.
Proof. unfold new_events. simpl. by rewrite drop_app_length. Qed.

Lemma touches_prefix path pre evs :
  pre `prefix_of` evs → touches path pre → touches path evs.
Proof. intros Hp (ev & Hin & Hev). exists ev. split; [by eapply elem_of_prefix|done]. Qed.

Lemma touches_app path a b : touches path (a ++ b) ↔ touches path a ∨ touches path b.
Proof.
  unfold touches. setoid_rewrite elem_of_app. split.
  - intros (ev & [H|H] & Hev); eauto.
  - intros [(ev & H & Hev)|(ev & H & Hev)]; eauto.
Qed.

Lemma touches_cons path ev evs :
  touches path (ev :: evs) ↔ event_path ev = Some path ∨ touches path evs.
Proof.
  unfold touches. setoid_rewrite elem_of_cons. split.
  - intros (ev' & [->|H] & Hev); eauto.
  - intros [H|(ev' & H & Hev)]; eauto.
Qed.

Lemma touches_nil path : ¬ touches path [].
Proof. intros (ev & H & _). by apply elem_of_nil in H. Qed.

(** A prefix that touches a file no effect of [a] touches has all of [a]. *)
Lemma prefix_past path pre a b :
  pre `prefix_of` a ++ b → touches path pre → ¬ touches path a → a `prefix_of` pre.
Proof.
  intros Hp Ht Ha.
  destruct (prefix_weak_total pre a (a ++ b) Hp) as [H|H]; [by apply prefix_app_r| |done].
  destruct Ha. by eapply touches_prefix.
Qed.

Lemma replay_app fs a b : replay fs (a ++ b) = replay (replay fs a) b.
Proof. apply foldl_app. Qed.

(** Effects on other files leave the content of [path] alone. *)
Lemma replay_other path fs evs :
  ¬ touches path evs → replay fs evs !! path = fs !! path.
Proof.
  unfold replay. revert fs. induction evs as [|ev evs IH]; intros fs Hn; [done|].
  simpl. rewrite IH.
  - destruct ev as [p|p d|p| | | |]; simpl; try done.
    + apply lookup_insert_ne. intros ->. apply Hn, touches_cons. by left.
    + apply lookup_insert_ne. intros ->. apply Hn, touches_cons. by left.
  - intros H. apply Hn, touches_cons. by right.
Qed.

Lemma replay_watermark fs data :
  replay fs (EvParse :: watermark_events data) !! watermark_path = Some data.
Proof.
  unfold replay, watermark_events. simpl.
  by rewrite !lookup_insert_eq.
Qed.

Lemma failure_events_untouched path e : ¬ touches path (failure_events e).
Proof.
  unfold failure_events. rewrite !touches_cons. intros [H|[H|H]]; try done.
  by apply touches_nil in H.
Qed.

Lemma watermark_events_flag data : ¬ touches flag_path (watermark_events data).
Proof.
  unfold watermark_events. rewrite !touches_cons. intros [H|[H|[H|H]]]; try done.
  by apply touches_nil in H.
Qed.

Lemma flag_events_watermark content : ¬ touches watermark_path (flag_events content).
Proof.
  unfold flag_events. rewrite !touches_cons. intros [H|[H|[H|H]]]; try done.
  by apply touches_nil in H.
Qed.

(** When the storing steps touch the flag at all, they begin with the three
    effects that write the whole payload, and touch the watermark no more. *)
Lemma store_steps_flag env data :
  touches flag_path (store_steps env data).2 →
  ∃ rest, (store_steps env data).2 = watermark_events data ++ rest
          ∧ ¬ touches watermark_path rest.
Proof.
  unfold store_steps.
  destruct (open_outcome env watermark_path); cbn [snd].
  { intros H. by apply touches_nil in H. }
  destruct (write_outcome_of env watermark_path); cbn [snd].
  2: { intros H. by apply watermark_events_flag in H. }
  destruct (open_outcome env flag_path); cbn [snd].
  { intros H. by apply watermark_events_flag in H. }
  destruct (write_outcome_of env flag_path); cbn [snd]; intros _.
  - unfold upload_events. eexists. split; [done|]. unfold flag_events.
    cbn [app]. rewrite !touches_cons.
    intros [H|[H|[H|[H|[H|H]]]]]; try done. by apply touches_nil in H.
  - eexists. split; [done|]. apply flag_events_watermark.
Qed.

(** C1. In every state passed through while a request is handled, if the
    completion flag has been touched by that request then the request has
    already opened watermark.png, written its whole payload to it and closed
    it, and the file holds the payload.  When no file operation fails, a
    request that gets to the storing steps performs exactly the three
    effects on the watermark followed by the three on the flag. *)
Theorem flag_written_after_watermark env req w :
  (∀ s, reachable_during (handle_upload env req) w s →
        touches flag_path (new_events w s) →
        ∃ it data,
          carries_file req it ∧ item_read it = inr data
          ∧ (EvParse :: watermark_events data) `prefix_of` new_events w s
          ∧ files s !! watermark_path = Some data)
  ∧ (∀ data, valid_upload req data → len data ≤ max_upload_size → io_ok env →
       ∃ rest, run_events (handle_upload env req) w
               = EvParse :: watermark_events data
                   ++ flag_events (PyStr.encode "success") ++ rest
               ∧ ∀ path, ¬ touches path rest).
Proof.
  split.
  - intros s (pre & Hpre & ->). rewrite new_events_state_after. intros Ht.
    destruct (handle_upload_run env req w) as (evs & Hshape & Hrun).
    rewrite (handle_upload_events _ _ _ _ Hrun) in Hpre.
    pose proof (touches_prefix _ _ _ Hpre Ht) as Hall.
    destruct Hshape as [Hct|msg Hmsg|e|it data Hc Hx Hr Hl].
    + apply touches_cons in Hall as [H|H]; [done|]. by apply touches_nil in H.
    + apply touches_cons in Hall as [H|H]; [done|].
      apply touches_cons in H as [H|H]; [done|]. by apply touches_nil in H.
    + apply touches_cons in Hall as [H|H]; [done|].
      by apply failure_events_untouched in H.
    + exists it, data. split; [done|]. split; [done|].
      set (tail := match (store_steps env data).1 with
                   | Some e => failure_events e
                   | None => []
                   end) in *.
      assert (¬ touches watermark_path tail) as Htail1.
      { subst tail. destruct (store_steps env data).1; [apply failure_events_untouched|].
        apply touches_nil. }
      assert (touches flag_path (store_steps env data).2) as Hsteps.
      { apply touches_cons in Hall as [H|H]; [done|].
        apply touches_app in H as [H|H]; [done|]. subst tail.
        destruct (store_steps env data).1; [by apply failure_events_untouched in H|].
        by apply touches_nil in H. }
      destruct (store_steps_flag env data Hsteps) as (rest & Hsplit & Hrest).
      rewrite Hsplit in Hpre.
      assert ((EvParse :: watermark_events data) `prefix_of` pre) as Hfirst.
      { apply (prefix_past flag_path _ _ (rest ++ tail)); [|done|].
        - by rewrite <- app_assoc in Hpre.
        - rewrite touches_cons. intros [H|H]; [done|]. by apply watermark_events_flag in H. }
      split; [done|]. destruct Hfirst as [k ->]. unfold state_after. cbn [files].
      rewrite replay_app, replay_other; [apply replay_watermark|].
      intros Hk. rewrite <- (app_assoc (watermark_events data)) in Hpre.
      change (EvParse :: watermark_events data ++ rest ++ tail)
        with ((EvParse :: watermark_events data) ++ rest ++ tail) in Hpre.
      apply prefix_app_inv in Hpre.
      apply (touches_prefix _ _ _ Hpre) in Hk. apply touches_app in Hk as [H|H]; tauto.
  - intros data Hv Hl Hio. unfold run_events, run.
    rewrite (handle_upload_accepts env req w data Hv Hl Hio). unfold accepted. simpl.
    rewrite drop_app_length. unfold upload_events. eexists. split; [done|].
    intros path. rewrite !touches_cons. intros [H|[H|H]]; try done.
    by apply touches_nil in H.
Qed.

Lemma flag_written_after_watermark_witness :
  let req := Sample.upload "Logo.PNG" Sample.three_bytes in
  let s := state_after Sample.empty_world
             (EvParse :: watermark_events Sample.three_bytes ++ [EvOpen flag_path]) in
  ∃ it data,
    carries_file req it ∧ item_read it = inr data
    ∧ (EvParse :: watermark_events data) `prefix_of` new_events Sample.empty_world s
    ∧ files s !! watermark_path = Some data.
Proof.
  apply (proj1 (flag_written_after_watermark Sample.env_ok
                  (Sample.upload "Logo.PNG" Sample.three_bytes) Sample.empty_world)).
  - eexists. split; [|reflexivity].
    eexists. vm_compute. reflexivity.
  - exists (EvOpen flag_path). split; [|reflexivity].
    vm_compute. do 4 apply list_elem_of_further. apply list_elem_of_here.
Defined.

(** ** Rejections *)

Lemma store_steps_responses env data st hdrs body :
  EvResponse st hdrs body ∈ (store_steps env data).2 → st = 200.
Proof.
  unfold store_steps, upload_events, watermark_events, flag_events.
  destruct (open_outcome env watermark_path); cbn [snd].
  { by intros H%elem_of_nil. }
  destruct (write_outcome_of env watermark_path); cbn [snd].
  2: { rewrite !elem_of_cons, elem_of_nil. intros [H|[H|[H|[]]]]; discriminate H. }
  destruct (open_outcome env flag_path); cbn [snd].
  { rewrite !elem_of_cons, elem_of_nil. intros [H|[H|[H|[]]]]; discriminate H. }
  destruct (write_outcome_of env flag_path); cbn [snd app].
  - rewrite !elem_of_cons, elem_of_nil. unfold json_response.
    intros [H|[H|[H|[H|[H|[H|[H|[H|[]]]]]]]]]; try discriminate H. by injection H.
  - rewrite !elem_of_cons, elem_of_nil.
    intros [H|[H|[H|[H|[H|[H|[]]]]]]]; discriminate H.
Qed.

(** C10. Whenever the upload handler answers 400 (bad content type, no part
    named file, empty file name, extension not allowed, payload too large),
    the run consists of that answer, after the parsing of the body if it got
    that far: no file is opened, written or closed, and the files are all as
    they were. *)
Theorem rejection_leaves_files env req w hdrs body :
  EvResponse 400 hdrs body ∈ run_events (handle_upload env req) w →
  (∃ pre msg, msg ∈ rejection_messages ∧ (pre = [] ∨ pre = [EvParse])
              ∧ handle_upload env req w = rejected w pre msg)
  ∧ files (run (handle_upload env req) w) = files w
  ∧ (∀ path, ¬ touches path (run_events (handle_upload env req) w)).
Proof.
  destruct (handle_upload_run env req w) as (evs & Hshape & Hrun).
  rewrite (handle_upload_events _ _ _ _ Hrun). unfold run. rewrite Hrun. simpl.
  intros Hin.
  destruct Hshape as [Hct|msg Hmsg|e|it data Hc Hx Hr Hl].
  - split_and!.
    + exists [], "Invalid content type". split_and!; [by left|by left|done].
    + done.
    + intros path. rewrite touches_cons. intros [H|H]; [done|]. by apply touches_nil in H.
  - split_and!.
    + exists [EvParse], msg. split_and!; [by right|by right|done].
    + done.
    + intros path. rewrite !touches_cons. intros [H|[H|H]]; try done.
      by apply touches_nil in H.
  - exfalso. unfold failure_events, json_response in Hin.
    rewrite !elem_of_cons, elem_of_nil in Hin.
    destruct Hin as [H|[H|[H|[]]]]; discriminate H.
  - exfalso. apply elem_of_cons in Hin as [H|Hin]; [discriminate H|].
    apply elem_of_app in Hin as [Hin|Hin].
    + by apply store_steps_responses in Hin.
    + destruct (store_steps env data).1; [|by apply elem_of_nil in Hin].
      unfold failure_events, json_response in Hin.
      rewrite !elem_of_cons, elem_of_nil in Hin.
      destruct Hin as [H|[H|[]]]; discriminate H.
Qed.

Lemma rejection_leaves_files_witness :
  let req := mkRequest "/upload" (Some "multipart/form-data; boundary=x")
               (inr [mkItem "file" (Some "") (inr Sample.three_bytes)]) in
  let w := mkWorld {[ watermark_path := [Byte.x01] ]} [] in
  (∃ pre msg, msg ∈ rejection_messages ∧ (pre = [] ∨ pre = [EvParse])
              ∧ handle_upload Sample.env_ok req w = rejected w pre msg)
  ∧ files (run (handle_upload Sample.env_ok req) w) = files w
  ∧ (∀ path, ¬ touches path (run_events (handle_upload Sample.env_ok req) w)).
Proof.
  apply (rejection_leaves_files Sample.env_ok
           (mkRequest "/upload" (Some "multipart/form-data; boundary=x")
              (inr [mkItem "file" (Some "") (inr Sample.three_bytes)]))
           (mkWorld {[ watermark_path := [Byte.x01] ]} [])
           [("Content-type", "application/json"); ("Content-length", "29")]
           (PyStr.encode (Json.dumps [("error", Json.JStr "No file selected")]))).
  vm_compute. apply list_elem_of_further, list_elem_of_here.
Defined.

(** ** Failures *)

Section Failures.
Context (env : Env) (req : Request) (w : World).

Local Opaque allowed_extensions max_upload_size watermark_path flag_path
  json_response PyStr.lower PyStr.endswith PyStr.truthy PyStr.startswith
  PyStr.encode PyStr.str_of_int existsb replay.

(** The parser raises. *)
Lemma parser_failure_raises e :
  PyStr.startswith (default "" (req_content_type req)) "multipart/form-data" = true →
  req_form req = inl e →
  upload_body env req w = (inl e, parsed w).
Proof. intros H1 H2. unfold upload_body. unfold_monad. by rewrite H1, H2. Qed.

(** Several parts are named [file]: [form['file']] is a list. *)
Lemma several_parts_raise form its :
  PyStr.startswith (default "" (req_content_type req)) "multipart/form-data" = true →
  req_form req = inr form →
  form_getitem form "file" = inr (Multiple its) →
  upload_body env req w
  = (inl (Exn "AttributeError" "'list' object has no attribute 'filename'"), parsed w).
Proof.
  intros H1 H2 H3. unfold upload_body. unfold_monad. rewrite H1, H2. simpl.
  by rewrite (getitem_contains _ _ _ H3), H3.
Qed.

(** Reading the payload raises. *)
Lemma read_failure_raises it e :
  carries_file req it → extension_ok it = true → item_read it = inl e →
  upload_body env req w = (inl e, parsed w).
Proof.
  intros (H1 & form & H2 & H3) H5 H6.
  pose proof (extension_ok_truthy _ H5) as H4. unfold extension_ok in H5.
  unfold upload_body. unfold_monad. rewrite H1, H2. simpl.
  rewrite (getitem_contains _ _ _ H3), H3. simpl. by rewrite H4, H5, H6.
Qed.

(** Opening or writing one of the two files raises. *)
Lemma store_failure_raises it data e :
  carries_file req it → extension_ok it = true → item_read it = inr data →
  len data ≤ max_upload_size →
  (store_steps env data).1 = Some e →
  upload_body env req w = (inl e, state_after (parsed w) (store_steps env data).2).
Proof.
  intros Hc Hx Hr Hl He.
  rewrite (body_stores env req w it data Hc Hx Hr Hl), store_upload_run. by rewrite He.
Qed.

End Failures.

Lemma store_steps_failed env data e st hdrs body :
  (store_steps env data).1 = Some e → EvResponse st hdrs body ∉ (store_steps env data).2.
Proof.
  unfold store_steps, watermark_events, flag_events.
  destruct (open_outcome env watermark_path); cbn [fst snd].
  { intros _. apply not_elem_of_nil. }
  destruct (write_outcome_of env watermark_path); cbn [fst snd].
  2: { intros _. rewrite !elem_of_cons, elem_of_nil. intros [H|[H|[H|[]]]]; discriminate H. }
  destruct (open_outcome env flag_path); cbn [fst snd].
  { intros _. rewrite !elem_of_cons, elem_of_nil. intros [H|[H|[H|[]]]]; discriminate H. }
  destruct (write_outcome_of env flag_path); cbn [fst snd app]; [done|].
  intros _. rewrite !elem_of_cons, elem_of_nil.
  intros [H|[H|[H|[H|[H|[H|[]]]]]]]; discriminate H.
Qed.



(** A body with two parts named [file] is answered 500: [form['file']] is
    then a list, which has no [filename]. *)
Lemma two_file_parts_fail :
  let part := Sample.png_item "Logo.PNG" Sample.three_bytes in
  let req := mkRequest "/upload" (Some "multipart/form-data; boundary=x")
               (inr [part; part]) in
  run_events (handle_upload Sample.env_ok req) Sample.empty_world
  = EvParse :: failure_events
                 (Exn "AttributeError" "'list' object has no attribute 'filename'").
Proof. reflexivity. Qed.



(** ** Consecutive uploads *)

(** C8. After two valid uploads in a row watermark.png holds the bytes of
    the second and nothing of the first: the files are those the second
    upload alone would have left, and no file besides watermark.png and
    upload_complete.flag has appeared. *)
Theorem second_upload_overwrites env1 env2 req1 req2 w d1 d2 :
  valid_upload req1 d1 → len d1 ≤ 10485760 → io_ok env1 →
  valid_upload req2 d2 → len d2 ≤ 10485760 → io_ok env2 →
  let w1 := run (handle_upload env1 req1) w in
  let w2 := run (handle_upload env2 req2) w1 in
  files w1 !! watermark_path = Some d1
  ∧ files w2 !! watermark_path = Some d2
  ∧ files w2 = files (run (handle_upload env2 req2) w)
  ∧ dom (files w2) = {[watermark_path; flag_path]} ∪ dom (files w).
Proof.
  intros V1 L1 O1 V2 L2 O2. unfold run. simpl.
  rewrite (handle_upload_accepts env1 req1 w d1 V1 L1 O1).
  rewrite (handle_upload_accepts env2 req2 _ d2 V2 L2 O2).
  rewrite (handle_upload_accepts env2 req2 w d2 V2 L2 O2).
  unfold accepted. simpl.
  pose proof paths_differ as Hne.
  split_and!.
  - by rewrite lookup_insert_ne, lookup_insert_eq.
  - by rewrite lookup_insert_ne, lookup_insert_eq.
  - apply map_eq. intros p.
    destruct (decide (p = flag_path)) as [->|Hf]; [by rewrite !lookup_insert_eq|].
    rewrite !(lookup_insert_ne _ flag_path p) by done.
    destruct (decide (p = watermark_path)) as [->|Hw]; [by rewrite !lookup_insert_eq|].
    rewrite !(lookup_insert_ne _ watermark_path p) by done.
    by rewrite !lookup_insert_ne by done.
  - rewrite !dom_insert_L. apply set_eq. intros p.
    rewrite !elem_of_union, !elem_of_singleton. tauto.
Qed.

Lemma second_upload_overwrites_witness :
  let req1 := Sample.upload "Logo.PNG" Sample.three_bytes in
  let req2 := Sample.upload "Logo.PNG" [Byte.x47; Byte.x49] in
  let w1 := run (handle_upload Sample.env_ok req1) Sample.empty_world in
  let w2 := run (handle_upload Sample.env_ok req2) w1 in
  files w1 !! watermark_path = Some Sample.three_bytes
  ∧ files w2 !! watermark_path = Some [Byte.x47; Byte.x49]
  ∧ files w2 = files (run (handle_upload Sample.env_ok req2) Sample.empty_world)
  ∧ dom (files w2) = {[watermark_path; flag_path]} ∪ dom (files Sample.empty_world).
Proof.
  apply (second_upload_overwrites Sample.env_ok Sample.env_ok
           (Sample.upload "Logo.PNG" Sample.three_bytes)
           (Sample.upload "Logo.PNG" [Byte.x47; Byte.x49])
           Sample.empty_world Sample.three_bytes [Byte.x47; Byte.x49]).
  - apply sample_upload_valid.
  - vm_compute. discriminate.
  - apply sample_env_ok_io.
  - apply sample_upload_valid.
  - vm_compute. discriminate.
  - apply sample_env_ok_io.
Defined.

(** ** Choosing the port *)

(** What the probing loop over [a, a + n) ends with. *)
Lemma probe_loop_range net a n :
  match probe_loop net (seqZ a n) with
  | Some (inr p) =>
      a ≤ p < a + n ∧ probe_bind net p = BindOk
      ∧ ∀ q, a ≤ q < p → probe_bind net q = BindOSError
  | Some (inl e) =>
      ∃ p, a ≤ p < a + n ∧ probe_bind net p = BindRaises e
           ∧ ∀ q, a ≤ q < p → probe_bind net q = BindOSError
  | None => ∀ q, a ≤ q < a + n → probe_bind net q = BindOSError
  end.
Proof.
  revert a. induction n as [|n Hn IH|n Hn _] using (Z.succ_pred_induction 0); intros a.
  3: { rewrite seqZ_nil by lia. simpl. intros q Hq. lia. }
  - rewrite seqZ_nil by done. simpl. intros q Hq. lia.
  - rewrite seqZ_cons by lia. rewrite Z.pred_succ.
    cbn [probe_loop]. destruct (probe_bind net a) eqn:Ha.
    + split; [lia|]. split; [done|]. intros q Hq. lia.
    + specialize (IH (Z.succ a)).
      assert (∀ q p, a ≤ q < p →
                (∀ q', Z.succ a ≤ q' < p → probe_bind net q' = BindOSError) →
                probe_bind net q = BindOSError) as Hext.
      { intros q p Hq Hall. destruct (decide (q = a)) as [->|Hne]; [done|].
        apply Hall. lia. }
      destruct (probe_loop net (seqZ (Z.succ a) n)) as [[e|p]|].
      * destruct IH as (p & Hp & Hb & Hall). exists p. split; [lia|]. split; [done|].
        intros q Hq. by apply (Hext q p).
      * destruct IH as (Hp & Hb & Hall). split; [lia|]. split; [done|].
        intros q Hq. by apply (Hext q p).
      * intros q Hq. apply (Hext q (a + Z.succ n)); [done|].
        intros q' Hq'. apply IH. lia.
    + exists a. split; [lia|]. split; [done|]. intros q Hq. lia.
Qed.

(** C7. With no port given, the ports 8080, 8081, ... are tried in order, a
    hundred at most, by binding each; the first that binds is the port the
    server is started on; when none of the hundred binds, start-up dies of
    an error nobody catches. *)
Theorem port_probing net :
  (∀ p, 8080 ≤ p < 8180 →
        probe_bind net p = BindOk →
        (∀ q, 8080 ≤ q < p → probe_bind net q = BindOSError) →
        find_available_port net 8080 100 = inr p
        ∧ (server_bind net p = None → ∃ printed, run_server net None = Serving p printed))
  ∧ (∀ p, find_available_port net 8080 100 = inr p →
          8080 ≤ p < 8180 ∧ probe_bind net p = BindOk
          ∧ ∀ q, 8080 ≤ q < p → probe_bind net q = BindOSError)
  ∧ ((∀ q, 8080 ≤ q < 8180 → probe_bind net q = BindOSError) →
     run_server net None
     = Uncaught (Exn "RuntimeError" "Could not find available port in range 8080-8180")).
Proof.
  pose proof (probe_loop_range net 8080 100) as H.
  unfold run_server, find_available_port, py_range.
  change (8080 + 100 - 8080) with 100.
  destruct (probe_loop net (seqZ 8080 100)) as [[e|p']|].
  - destruct H as (p' & Hp' & Hb' & Hall'). split_and!.
    + intros p Hp Hb Hall. exfalso.
      destruct (Z.lt_trichotomy p p') as [Hlt|[->|Hgt]].
      * rewrite Hall' in Hb by lia. discriminate Hb.
      * rewrite Hb' in Hb. discriminate Hb.
      * rewrite Hall in Hb' by lia. discriminate Hb'.
    + intros p Hp. discriminate Hp.
    + intros Hall. rewrite Hall in Hb' by lia. discriminate Hb'.
  - destruct H as (Hp' & Hb' & Hall'). split_and!.
    + intros p Hp Hb Hall.
      assert (p = p') as ->.
      { destruct (Z.lt_trichotomy p p') as [Hlt|[->|Hgt]]; [|done|].
        - rewrite Hall' in Hb by lia. discriminate Hb.
        - rewrite Hall in Hb' by lia. discriminate Hb'. }
      split; [done|]. intros ->. by eexists.
    + intros p [= <-]. done.
    + intros Hall. rewrite Hall in Hb' by lia. discriminate Hb'.
  - split_and!.
    + intros p Hp Hb Hall. rewrite H in Hb by lia. discriminate Hb.
    + intros p Hp. discriminate Hp.
    + intros _. reflexivity.
Qed.

(** With 8080 taken and 8081 free the server starts on 8081. *)
Lemma port_probing_witness :
  let net := mkNet (λ p, if p =? 8080 then BindOSError else BindOk) (λ _, None) in
  find_available_port net 8080 100 = inr 8081
  ∧ (server_bind net 8081 = None → ∃ printed, run_server net None = Serving 8081 printed).
Proof.
  apply (proj1 (port_probing
                  (mkNet (λ p, if p =? 8080 then BindOSError else BindOk) (λ _, None)))
           8081).
  - lia.
  - reflexivity.
  - intros q Hq. assert (q = 8080) as -> by lia. reflexivity.
Defined.

(** With every port from 8080 to 8179 taken, start-up fails. *)
Lemma port_probing_exhausted :
  run_server (mkNet (λ _, BindOSError) (λ _, None)) None
  = Uncaught (Exn "RuntimeError" "Could not find available port in range 8080-8180").
Proof. reflexivity. Qed.

(** * Further properties of the server *)

(** ** Static files and routes *)

Lemma replay_pathless fs ev : event_path ev = None → replay_event fs ev = fs.
Proof. by destruct ev. Qed.

Lemma state_after_pathless w ev :
  event_path ev = None → mkWorld (files w) (events w ++ [ev]) = state_after w [ev].
Proof. intros H. unfold state_after, replay. simpl. by rewrite replay_pathless. Qed.

(** Closes a goal that asks for the one answer of a run that is written out. *)
Ltac one_answer :=
  eexists; split; [|split]; [| |reflexivity]; reflexivity.

(** [serve_file] answers once, touches nothing and never raises. *)
Lemma serve_file_run env filename content_type w :
  ∃ ev, is_answer ev = true ∧ event_path ev = None
        ∧ serve_file env filename content_type w
          = (inr tt, mkWorld (files w) (events w ++ [ev])).
Proof.
  unfold serve_file, try_except, bind, read_file, emit, send_error.
  destruct (files w !! filename) as [content|]; [|one_answer].
  destruct (read_outcome env filename) as [e|]; [|one_answer].
  destruct (String.eqb (exn_class e) "FileNotFoundError"); one_answer.
Qed.

Lemma do_GET_run env req w :
  ∃ ev, is_answer ev = true ∧ event_path ev = None
        ∧ do_GET env req w = (inr tt, mkWorld (files w) (events w ++ [ev])).
Proof.
  unfold do_GET.
  destruct (String.eqb (req_path req) "/" || String.eqb (req_path req) "/index.html");
    [apply serve_file_run|].
  destruct (String.eqb (req_path req) "/status"); one_answer.
Qed.

(** X2. GET / and GET /index.html answer 200 text/html with the content of
    index.html and its length, when the file is there and can be read. *)
Theorem index_is_served env req w content :
  req_path req = "/" ∨ req_path req = "/index.html" →
  files w !! "index.html" = Some content →
  read_outcome env "index.html" = None →
  do_GET env req w
  = (inr tt, mkWorld (files w)
               (events w ++
                  [EvResponse 200
                     [("Content-type", "text/html");
                      ("Content-length", PyStr.str_of_int (len content))]
                     content])).
Proof.
  intros Hp Hf Hr. unfold do_GET.
  assert (String.eqb (req_path req) "/" || String.eqb (req_path req) "/index.html" = true)
    as ->.
  { destruct Hp as [-> | ->]; reflexivity. }
  unfold serve_file, try_except, bind, read_file, emit. by rewrite Hf, Hr.
Qed.

Lemma index_is_served_witness :
  let w := mkWorld {[ "index.html" := Sample.three_bytes ]} [] in
  do_GET Sample.env_ok (mkRequest "/" None (inr [])) w
  = (inr tt, mkWorld (files w)
               (events w ++
                  [EvResponse 200
                     [("Content-type", "text/html");
                      ("Content-length", PyStr.str_of_int (len Sample.three_bytes))]
                     Sample.three_bytes])).
Proof.
  apply (index_is_served Sample.env_ok (mkRequest "/" None (inr []))
           (mkWorld {[ "index.html" := Sample.three_bytes ]} []) Sample.three_bytes).
  - left. reflexivity.
  - reflexivity.
  - reflexivity.
Defined.

(** X3. When index.html is missing, GET / and GET /index.html are answered
    with the error page 404 "File index.html not found". *)
Theorem missing_index_is_404 env req w :
  req_path req = "/" ∨ req_path req = "/index.html" →
  files w !! "index.html" = None →
  do_GET env req w
  = (inr tt, mkWorld (files w)
               (events w ++ [EvSendError 404 "File index.html not found"])).
Proof.
  intros Hp Hf. unfold do_GET.
  assert (String.eqb (req_path req) "/" || String.eqb (req_path req) "/index.html" = true)
    as ->.
  { destruct Hp as [-> | ->]; reflexivity. }
  unfold serve_file, try_except, bind, read_file, emit, send_error. by rewrite Hf.
Qed.

Lemma missing_index_is_404_witness :
  do_GET Sample.env_ok (mkRequest "/index.html" None (inr [])) Sample.empty_world
  = (inr tt, mkWorld (files Sample.empty_world)
               (events Sample.empty_world
                  ++ [EvSendError 404 "File index.html not found"])).
Proof.
  apply (missing_index_is_404 Sample.env_ok (mkRequest "/index.html" None (inr []))
           Sample.empty_world).
  - right. reflexivity.
  - reflexivity.
Defined.

(** X4. When reading index.html raises anything but FileNotFoundError, the
    answer is the error page 500 "Error serving file: <text>", and the
    exception goes no further. *)
Theorem unreadable_index_is_500 env req w content e :
  req_path req = "/" ∨ req_path req = "/index.html" →
  files w !! "index.html" = Some content →
  read_outcome env "index.html" = Some e →
  exn_class e ≠ "FileNotFoundError" →
  do_GET env req w
  = (inr tt, mkWorld (files w)
               (events w ++ [EvSendError 500 ("Error serving file: " +:+ exn_text e)])).
Proof.
  intros Hp Hf Hr Hc. unfold do_GET.
  assert (String.eqb (req_path req) "/" || String.eqb (req_path req) "/index.html" = true)
    as ->.
  { destruct Hp as [-> | ->]; reflexivity. }
  unfold serve_file, try_except, bind, read_file, emit, send_error. rewrite Hf, Hr.
  by apply String.eqb_neq in Hc as ->.
Qed.

Lemma unreadable_index_is_500_witness :
  let denied := Exn "PermissionError" "[Errno 13] Permission denied: 'index.html'" in
  let env := mkEnv (λ _, None) (λ _, WriteOk) (λ _, Some denied) in
  let w := mkWorld {[ "index.html" := Sample.three_bytes ]} [] in
  do_GET env (mkRequest "/" None (inr [])) w
  = (inr tt, mkWorld (files w)
               (events w ++ [EvSendError 500 ("Error serving file: " +:+ exn_text denied)])).
Proof.
  apply (unreadable_index_is_500
           (mkEnv (λ _, None) (λ _, WriteOk)
              (λ _, Some (Exn "PermissionError"
                            "[Errno 13] Permission denied: 'index.html'")))
           (mkRequest "/" None (inr []))
           (mkWorld {[ "index.html" := Sample.three_bytes ]} [])
           Sample.three_bytes
           (Exn "PermissionError" "[Errno 13] Permission denied: 'index.html'")).
  - left. reflexivity.
  - reflexivity.
  - reflexivity.
  - discriminate.
Defined.

(** ** What any request does *)


Lemma touches_scope path evs :
  Forall on_upload_files evs → touches path evs →
  path = watermark_path ∨ path = flag_path.
Proof.
  intros Hall (ev & Hin & Hp). rewrite Forall_forall in Hall.
  specialize (Hall ev Hin). unfold on_upload_files in Hall. by rewrite Hp in Hall.
Qed.

(** Proves [Forall on_upload_files] of a list that is written out. *)
Ltac in_scope :=
  repeat first
    [ apply List.Forall_nil
    | apply List.Forall_cons;
      [ unfold json_response; cbn [event_path];
        first [ exact I | left; reflexivity | right; reflexivity ] | ] ].

Lemma store_steps_scope env data : Forall on_upload_files (store_steps env data).2.
Proof.
  unfold store_steps, upload_events, watermark_events, flag_events, on_upload_files.
  destruct (open_outcome env watermark_path); cbn [snd]; [in_scope|].
  destruct (write_outcome_of env watermark_path); cbn [snd]; [|in_scope].
  destruct (open_outcome env flag_path); cbn [snd]; [in_scope|].
  destruct (write_outcome_of env flag_path); cbn [snd app]; in_scope.
Qed.

Lemma upload_shape_scope env req evs :
  upload_shape env req evs → Forall on_upload_files evs.
Proof.
  intros [Hct|msg Hmsg|e|it data Hc Hx Hr Hl]; unfold on_upload_files.
  - in_scope.
  - in_scope.
  - unfold failure_events. in_scope.
  - apply List.Forall_cons; [done|]. apply Forall_app. split; [apply store_steps_scope|].
    destruct (store_steps env data).1; [unfold failure_events|]; in_scope.
Qed.

Lemma store_steps_answers env data :
  length (answers ((store_steps env data).2
                     ++ match (store_steps env data).1 with
                        | Some e => failure_events e
                        | None => []
                        end)) = 1%nat.
Proof.
  unfold store_steps, upload_events, watermark_events, flag_events, failure_events.
  destruct (open_outcome env watermark_path); cbn [fst snd]; [done|].
  destruct (write_outcome_of env watermark_path); cbn [fst snd]; [|done].
  destruct (open_outcome env flag_path); cbn [fst snd]; [done|].
  by destruct (write_outcome_of env flag_path).
Qed.

Lemma upload_shape_answers env req evs :
  upload_shape env req evs → length (answers evs) = 1%nat.
Proof.
  intros [Hct|msg Hmsg|e|it data Hc Hx Hr Hl]; try done.
  change (length (answers ((store_steps env data).2
                             ++ match (store_steps env data).1 with
                                | Some e => failure_events e
                                | None => []
                                end)) = 1%nat).
  apply store_steps_answers.
Qed.

(** Every handler returns, and its run is a list of effects with one answer
    in it and no file operation outside the two upload files. *)
Lemma handle_one_run env meth req w :
  ∃ evs, handle_one env meth req w = (inr tt, state_after w evs)
         ∧ length (answers evs) = 1%nat
         ∧ Forall on_upload_files evs.
Proof.
  destruct meth; simpl.
  - destruct (do_GET_run env req w) as (ev & Ha & Hp & H). exists [ev].
    rewrite H, (state_after_pathless _ _ Hp). split; [done|]. split.
    + unfold answers. simpl. by rewrite Ha.
    + apply List.Forall_cons; [|apply List.Forall_nil]. unfold on_upload_files. by rewrite Hp.
  - unfold do_POST. destruct (String.eqb (req_path req) "/upload").
    + destruct (handle_upload_run env req w) as (evs & Hshape & H). exists evs.
      split; [done|]. split; [by eapply upload_shape_answers|by eapply upload_shape_scope].
    + exists [EvSendError 404 "Endpoint not found"]. split; [done|]. split; [done|].
      unfold on_upload_files. in_scope.
Qed.


Lemma replay_keeps fs evs path :
  is_Some (fs !! path) → is_Some (replay fs evs !! path).
Proof.
  unfold replay. revert fs. induction evs as [|ev evs IH]; intros fs H; [done|].
  simpl. apply IH. destruct ev as [p|p d|p| | | |]; simpl; try done.
  - destruct (decide (p = path)) as [->|Hne]; [by rewrite lookup_insert_eq|].
    by rewrite lookup_insert_ne.
  - destruct (decide (p = path)) as [->|Hne]; [by rewrite lookup_insert_eq|].
    by rewrite lookup_insert_ne.
Qed.

(** X6. No request removes a file, and no request changes a file other than
    watermark.png and upload_complete.flag: whatever name the client gives
    its file, nothing else in the working directory is written. *)
Theorem only_upload_files_change env meth req w :
  let w' := run (handle_one env meth req) w in
  (∀ path, is_Some (files w !! path) → is_Some (files w' !! path))
  ∧ (∀ path, path ≠ watermark_path → path ≠ flag_path →
             files w' !! path = files w !! path).
Proof.
  destruct (handle_one_run env meth req w) as (evs & H & _ & Hs).
  unfold run. rewrite H. simpl. split.
  - intros path. apply replay_keeps.
  - intros path H1 H2. apply replay_other. intros Ht.
    destruct (touches_scope _ _ Hs Ht); contradiction.
Qed.

Lemma get_keeps_files env req w : files (run (do_GET env req) w) = files w.
Proof.
  destruct (do_GET_run env req w) as (ev & _ & _ & H). unfold run. by rewrite H.
Qed.

(** X7. Files change only on POST /upload: every GET and every POST to
    another path leaves the working directory exactly as it was. *)
Theorem only_upload_route_writes env meth req w :
  files (run (handle_one env meth req) w) ≠ files w →
  meth = POST ∧ req_path req = "/upload".
Proof.
  intros Hne. destruct meth.
  - destruct Hne. apply get_keeps_files.
  - split; [done|]. destruct (String.eqb (req_path req) "/upload") eqn:E.
    + by apply String.eqb_eq.
    + destruct Hne. unfold run. simpl. unfold do_POST. by rewrite E.
Qed.

Lemma only_upload_route_writes_witness :
  POST = POST ∧ req_path (Sample.upload "Logo.PNG" Sample.three_bytes) = "/upload".
Proof.
  apply (only_upload_route_writes Sample.env_ok POST
           (Sample.upload "Logo.PNG" Sample.three_bytes) Sample.empty_world).
  intros H. apply (f_equal (λ m, m !! watermark_path)) in H.
  vm_compute in H. discriminate H.
Defined.

(** ** Sequences of requests *)



Lemma replay_opened fs evs path :
  EvOpen path ∈ evs → is_Some (replay fs evs !! path).
Proof.
  revert fs. induction evs as [|ev evs IH]; intros fs Hin.
  - by apply elem_of_nil in Hin.
  - apply elem_of_cons in Hin as [<-|Hin].
    + change (replay fs (EvOpen path :: evs)) with (replay (<[path := []]> fs) evs).
      apply replay_keeps. by rewrite lookup_insert_eq.
    + change (replay fs (ev :: evs)) with (replay (replay_event fs ev) evs). by apply IH.
Qed.

(** A run that leaves a flag found one or opened the watermark. *)
Lemma upload_shape_flag env req evs fs :
  upload_shape env req evs →
  is_Some (replay fs evs !! flag_path) →
  is_Some (fs !! flag_path) ∨ EvOpen watermark_path ∈ evs.
Proof.
  intros [Hct|msg Hmsg|e|it data Hc Hx Hr Hl].
  - rewrite replay_inert by (by repeat constructor). by left.
  - rewrite replay_inert by (by repeat constructor). by left.
  - rewrite replay_inert by (by repeat constructor). by left.
  - unfold store_steps, upload_events, watermark_events.
    destruct (open_outcome env watermark_path); cbn [fst snd].
    { rewrite replay_inert by (by repeat constructor). by left. }
    destruct (write_outcome_of env watermark_path); cbn [fst snd].
    2: { intros _. right. cbn [app]. in_list. }
    destruct (open_outcome env flag_path); cbn [fst snd].
    { intros _. right. cbn [app]. in_list. }
    destruct (write_outcome_of env flag_path); cbn [fst snd]; intros _; right;
      cbn [app]; in_list.
Qed.

Lemma handle_one_keeps_flag_rule env meth req w :
  flag_has_watermark w → flag_has_watermark (run (handle_one env meth req) w).
Proof.
  intros Hw. unfold flag_has_watermark, run. destruct meth; simpl.
  - destruct (do_GET_run env req w) as (ev & _ & _ & H). by rewrite H.
  - unfold do_POST. destruct (String.eqb (req_path req) "/upload"); [|done].
    destruct (handle_upload_run env req w) as (evs & Hshape & H). rewrite H. simpl.
    intros Hflag. destruct (upload_shape_flag _ _ _ _ Hshape Hflag) as [Hold|Hopen].
    + by apply replay_keeps, Hw.
    + by apply replay_opened.
Qed.

(** X9. Across any list of requests, valid or not, with files that fail to
    open or write or not: if the completion flag never was there without a
    watermark to begin with, it never is afterwards. *)
Theorem flag_never_without_watermark reqs w :
  flag_has_watermark w → flag_has_watermark (run (serve reqs) w).
Proof.
  revert w. induction reqs as [|[[env meth] req] rest IH]; intros w Hw; [done|].
  unfold run. cbn [serve]. unfold bind.
  pose proof (handle_one_keeps_flag_rule env meth req w Hw) as H1. unfold run in H1.
  destruct (handle_one_run env meth req w) as (evs & H & _ & _).
  rewrite H in H1 |- *. by apply IH.
Qed.

Lemma flag_never_without_watermark_witness :
  let denied := Exn "PermissionError" "[Errno 13] Permission denied" in
  let flag_fails := mkEnv (λ p, if String.eqb p flag_path then Some denied else None)
                      (λ _, WriteOk) (λ _, None) in
  flag_has_watermark
    (run (serve [(flag_fails, POST, Sample.upload "Logo.PNG" Sample.three_bytes);
                 (Sample.env_ok, GET, mkRequest "/status" None (inr []));
                 (Sample.env_ok, POST, Sample.upload "a.gif" Sample.three_bytes)])
       Sample.empty_world).
Proof.
  apply (flag_never_without_watermark
           [(mkEnv (λ p, if String.eqb p flag_path
                         then Some (Exn "PermissionError" "[Errno 13] Permission denied")
                         else None)
               (λ _, WriteOk) (λ _, None),
             POST, Sample.upload "Logo.PNG" Sample.three_bytes);
            (Sample.env_ok, GET, mkRequest "/status" None (inr []));
            (Sample.env_ok, POST, Sample.upload "a.gif" Sample.three_bytes)]
           Sample.empty_world).
  intros [x Hx]. vm_compute in Hx. discriminate Hx.
Defined.

(** ** The other answers of the upload handler *)

(** X10. A multipart body in which no part is named file is answered 400
    "No file uploaded" once it is parsed; no file is touched. *)
Theorem missing_file_part_is_rejected env req w form :
  PyStr.startswith (default "" (req_content_type req)) "multipart/form-data" = true →
  req_form req = inr form →
  (∀ it, it ∈ form → item_name it ≠ "file") →
  handle_upload env req w
  = (inr tt, mkWorld (files w)
               (events w ++ [EvParse;
                             json_response 400 [("error", Json.JStr "No file uploaded")]])).
Proof.
  intros Hct Hf Hno. apply handle_of_return.
  apply (body_rejects_no_file env req w form Hct Hf).
  unfold form_contains. apply not_true_is_false. intros H.
  apply existsb_exists in H as (it & Hin%list_elem_of_In & Heq%String.eqb_eq).
  by apply (Hno it).
Qed.

Lemma missing_file_part_is_rejected_witness :
  let other := mkItem "comment" None (inr []) in
  let req := mkRequest "/upload" (Some "multipart/form-data; boundary=x") (inr [other]) in
  handle_upload Sample.env_ok req Sample.empty_world
  = (inr tt, mkWorld (files Sample.empty_world)
               (events Sample.empty_world
                  ++ [EvParse;
                      json_response 400 [("error", Json.JStr "No file uploaded")]])).
Proof.
  apply (missing_file_part_is_rejected Sample.env_ok
           (mkRequest "/upload" (Some "multipart/form-data; boundary=x")
              (inr [mkItem "comment" None (inr [])]))
           Sample.empty_world [mkItem "comment" None (inr [])]).
  - reflexivity.
  - reflexivity.
  - intros it Hin%list_elem_of_singleton. subst it. discriminate.
Defined.

(** X11. A part named file that names no file, or an empty one, is answered
    400 "No file selected", whatever it holds; no file is touched. *)
Theorem unnamed_file_is_rejected env req w it :
  carries_file req it →
  item_filename it = None ∨ item_filename it = Some "" →
  handle_upload env req w
  = (inr tt, mkWorld (files w)
               (events w ++ [EvParse;
                             json_response 400 [("error", Json.JStr "No file selected")]])).
Proof.
  intros Hc Hn. apply handle_of_return.
  apply (body_rejects_no_filename env req w it Hc). by destruct Hn as [-> | ->].
Qed.

Lemma unnamed_file_is_rejected_witness :
  let part := mkItem "file" None (inr Sample.three_bytes) in
  let req := mkRequest "/upload" (Some "multipart/form-data; boundary=x") (inr [part]) in
  handle_upload Sample.env_ok req Sample.empty_world
  = (inr tt, mkWorld (files Sample.empty_world)
               (events Sample.empty_world
                  ++ [EvParse;
                      json_response 400 [("error", Json.JStr "No file selected")]])).
Proof.
  apply (unnamed_file_is_rejected Sample.env_ok
           (mkRequest "/upload" (Some "multipart/form-data; boundary=x")
              (inr [mkItem "file" None (inr Sample.three_bytes)]))
           Sample.empty_world (mkItem "file" None (inr Sample.three_bytes))).
  - split; [reflexivity|]. by eexists.
  - left. reflexivity.
Defined.

(** X12. The test of the source on the name, [any(filename.endswith(ext))]
    on the lowered name, holds exactly when the part of the name from its
    last dot on is, in lower case, one of the five allowed extensions. *)
Theorem extension_test_reads_last_extension fname :
  existsb (PyStr.endswith (PyStr.lower fname)) allowed_extensions = true
  ↔ PyStr.lower (Spec.file_extension fname) ∈ allowed_extensions.
Proof. apply extension_check_refines. Qed.

(** ** What a 200 means, and what a failing file leaves *)

Lemma extension_ok_named it :
  extension_ok it = true → ∃ fname, item_filename it = Some fname.
Proof.
  unfold extension_ok. destruct (item_filename it) as [fname|]; [by eexists|].
  intros H. vm_compute in H. discriminate H.
Qed.

Lemma carried_file_valid req it data :
  carries_file req it → extension_ok it = true → item_read it = inr data →
  valid_upload req data.
Proof.
  intros Hc Hx Hr. destruct (extension_ok_named _ Hx) as (fname & Hf).
  exists it, fname. split_and!; try done. by apply (extension_ok_spec _ _ Hf).
Qed.

Lemma store_steps_ok env data : (store_steps env data).1 = None → io_ok env.
Proof.
  unfold store_steps, io_ok.
  destruct (open_outcome env watermark_path); cbn [fst]; [done|].
  destruct (write_outcome_of env watermark_path); cbn [fst]; [|done].
  destruct (open_outcome env flag_path); cbn [fst]; [done|].
  by destruct (write_outcome_of env flag_path).
Qed.

(** A valid upload that is not too large runs the storing steps and, when
    they raise, the [except] block. *)
Lemma handle_upload_stores env req w data :
  valid_upload req data → len data ≤ max_upload_size →
  handle_upload env req w
  = (inr tt, state_after w
               (EvParse :: (store_steps env data).2
                  ++ match (store_steps env data).1 with
                     | Some e => failure_events e
                     | None => []
                     end)).
Proof.
  intros (it & fname & Hc & Hf & Hx & Hr) Hl.
  apply (extension_ok_spec _ _ Hf) in Hx.
  pose proof (body_stores env req w it data Hc Hx Hr Hl) as Hb.
  rewrite store_upload_run in Hb.
  destruct (store_steps env data) as [[e|] evs]; simpl in Hb |- *.
  - rewrite (handle_of_raise _ _ _ _ _ Hb). f_equal.
    rewrite <- (state_after_inert _ _ (failure_events_inert e)).
    by rewrite parsed_state_after, !state_after_app.
  - rewrite (handle_of_return _ _ _ _ Hb), app_nil_r. f_equal.
    by rewrite parsed_state_after, state_after_app.
Qed.

(** X13. The upload handler answers 200 only when both files have been
    written in full: a run that sends a 200 is the run of a valid upload,
    and afterwards watermark.png holds the payload and the flag "success". *)
Theorem success_means_stored env req w hdrs body :
  EvResponse 200 hdrs body ∈ run_events (handle_upload env req) w →
  ∃ data,
    valid_upload req data ∧ len data ≤ max_upload_size
    ∧ files (run (handle_upload env req) w) !! watermark_path = Some data
    ∧ files (run (handle_upload env req) w) !! flag_path = Some (PyStr.encode "success")
    ∧ run_events (handle_upload env req) w = EvParse :: upload_events data.
Proof.
  destruct (handle_upload_run env req w) as (evs & Hshape & Hrun).
  intros Hin. rewrite (handle_upload_events _ _ _ _ Hrun) in Hin.
  destruct Hshape as [Hct|msg Hmsg|e|it data Hc Hx Hr Hl].
  - apply list_elem_of_singleton in Hin. discriminate Hin.
  - rewrite !elem_of_cons, elem_of_nil in Hin.
    destruct Hin as [H|[H|[]]]; discriminate H.
  - unfold failure_events in Hin. rewrite !elem_of_cons, elem_of_nil in Hin.
    destruct Hin as [H|[H|[H|[]]]]; discriminate H.
  - exists data. pose proof (carried_file_valid _ _ _ Hc Hx Hr) as Hv.
    assert (io_ok env) as Hio.
    { apply (store_steps_ok env data).
      destruct (store_steps env data).1 as [e|] eqn:E; [exfalso|done].
      apply elem_of_cons in Hin as [H|Hin]; [discriminate H|].
      apply elem_of_app in Hin as [Hin|Hin].
      - by apply (store_steps_failed _ _ _ _ _ _ E) in Hin.
      - unfold failure_events in Hin. rewrite !elem_of_cons, elem_of_nil in Hin.
        destruct Hin as [H|[H|[]]]; discriminate H. }
    clear Hrun Hin. unfold run_events, run.
    rewrite (handle_upload_accepts env req w data Hv Hl Hio). unfold accepted.
    cbn [snd events files]. rewrite drop_app_length.
    split_and!; try done.
    + rewrite lookup_insert_ne by apply paths_differ. apply lookup_insert_eq.
    + apply lookup_insert_eq.
Qed.

Lemma success_means_stored_witness :
  let req := Sample.upload "Logo.PNG" Sample.three_bytes in
  ∃ data,
    valid_upload req data ∧ len data ≤ max_upload_size
    ∧ files (run (handle_upload Sample.env_ok req) Sample.empty_world) !! watermark_path
      = Some data
    ∧ files (run (handle_upload Sample.env_ok req) Sample.empty_world) !! flag_path
      = Some (PyStr.encode "success")
    ∧ run_events (handle_upload Sample.env_ok req) Sample.empty_world
      = EvParse :: upload_events data.
Proof.
  apply (success_means_stored Sample.env_ok
           (Sample.upload "Logo.PNG" Sample.three_bytes) Sample.empty_world
           [("Content-type", "application/json"); ("Content-length", "102")]
           (PyStr.encode
              (Json.dumps [("status", Json.JStr "success");
                           ("message", Json.JStr "File uploaded successfully");
                           ("filename", Json.JStr "watermark.png");
                           ("size", Json.JInt 3)]))).
  vm_compute. do 7 apply list_elem_of_further. apply list_elem_of_here.
Defined.

(** X14. When watermark.png cannot be opened for a valid upload, the answer
    is 500 with the text of the error and no file is changed: the watermark
    and the flag of an earlier upload stay. *)
Theorem unopened_watermark_changes_nothing env req w data e :
  valid_upload req data → len data ≤ max_upload_size →
  open_outcome env watermark_path = Some e →
  handle_upload env req w
  = (inr tt, mkWorld (files w) (events w ++ EvParse :: failure_events e)).
Proof.
  intros Hv Hl Ho. rewrite (handle_upload_stores env req w data Hv Hl).
  unfold store_steps. rewrite Ho. cbn [fst snd app].
  rewrite state_after_inert; [done|].
  apply List.Forall_cons; [done|]. apply failure_events_inert.
Qed.

Lemma unopened_watermark_changes_nothing_witness :
  let denied := Exn "PermissionError" "[Errno 13] Permission denied: 'watermark.png'" in
  let env := mkEnv (λ _, Some denied) (λ _, WriteOk) (λ _, None) in
  let w := mkWorld {[ watermark_path := [Byte.x01] ]} [] in
  handle_upload env (Sample.upload "Logo.PNG" Sample.three_bytes) w
  = (inr tt, mkWorld (files w) (events w ++ EvParse :: failure_events denied)).
Proof.
  apply (unopened_watermark_changes_nothing
           (mkEnv (λ _, Some (Exn "PermissionError"
                                "[Errno 13] Permission denied: 'watermark.png'"))
              (λ _, WriteOk) (λ _, None))
           (Sample.upload "Logo.PNG" Sample.three_bytes)
           (mkWorld {[ watermark_path := [Byte.x01] ]} [])
           Sample.three_bytes
           (Exn "PermissionError" "[Errno 13] Permission denied: 'watermark.png'")).
  - apply sample_upload_valid.
  - vm_compute. discriminate.
  - reflexivity.
Defined.

(** X15. When writing watermark.png fails after [n] bytes, the file is left
    with those [n] bytes only: what it held before is lost, the flag is not
    touched, and the answer is 500. *)
Theorem failed_write_truncates_watermark env req w data n e :
  valid_upload req data → len data ≤ max_upload_size →
  open_outcome env watermark_path = None →
  write_outcome_of env watermark_path = WriteFails n e →
  let w' := run (handle_upload env req) w in
  files w' = <[watermark_path := take n data]> (files w)
  ∧ files w' !! flag_path = files w !! flag_path
  ∧ run_events (handle_upload env req) w
    = EvParse :: watermark_events (take n data) ++ failure_events e.
Proof.
  intros Hv Hl Ho Hw. unfold run_events, run.
  rewrite (handle_upload_stores env req w data Hv Hl).
  unfold store_steps. rewrite Ho, Hw. cbn [fst snd]. unfold state_after.
  cbn [snd events files]. rewrite drop_app_length. split_and!; [| |done].
  - unfold replay, watermark_events. simpl.
    by rewrite lookup_insert_eq, insert_insert_eq.
  - rewrite replay_other; [done|]. rewrite touches_cons, touches_app.
    intros [H|[H|H]]; [done| |].
    + unfold watermark_events in H. rewrite !touches_cons in H.
      destruct H as [H|[H|[H|H]]]; try done. by apply touches_nil in H.
    + by apply failure_events_untouched in H.
Qed.

Lemma failed_write_truncates_watermark_witness :
  let full := Exn "OSError" "[Errno 28] No space left on device" in
  let env := mkEnv (λ _, None) (λ _, WriteFails 1 full) (λ _, None) in
  let w := mkWorld {[ watermark_path := [Byte.x01; Byte.x02; Byte.x03; Byte.x04] ]} [] in
  let w' := run (handle_upload env (Sample.upload "Logo.PNG" Sample.three_bytes)) w in
  files w' = <[watermark_path := take 1 Sample.three_bytes]> (files w)
  ∧ files w' !! flag_path = files w !! flag_path
  ∧ run_events (handle_upload env (Sample.upload "Logo.PNG" Sample.three_bytes)) w
    = EvParse :: watermark_events (take 1 Sample.three_bytes) ++ failure_events full.
Proof.
  apply (failed_write_truncates_watermark
           (mkEnv (λ _, None)
              (λ _, WriteFails 1 (Exn "OSError" "[Errno 28] No space left on device"))
              (λ _, None))
           (Sample.upload "Logo.PNG" Sample.three_bytes)
           (mkWorld {[ watermark_path := [Byte.x01; Byte.x02; Byte.x03; Byte.x04] ]} [])
           Sample.three_bytes 1
           (Exn "OSError" "[Errno 28] No space left on device")).
  - apply sample_upload_valid.
  - vm_compute. discriminate.
  - reflexivity.
  - reflexivity.
Defined.

(** X16. When the flag cannot be opened after the watermark was written,
    watermark.png holds the new payload while upload_complete.flag is as it
    was before the request, and the answer is 500: the watermark has been
    replaced without the flag being written. *)
Theorem unopened_flag_leaves_new_watermark env req w data e :
  valid_upload req data → len data ≤ max_upload_size →
  open_outcome env watermark_path = None →
  write_outcome_of env watermark_path = WriteOk →
  open_outcome env flag_path = Some e →
  let w' := run (handle_upload env req) w in
  files w' = <[watermark_path := data]> (files w)
  ∧ files w' !! flag_path = files w !! flag_path
  ∧ run_events (handle_upload env req) w
    = EvParse :: watermark_events data ++ failure_events e.
Proof.
  intros Hv Hl Ho Hw Hf. unfold run_events, run.
  rewrite (handle_upload_stores env req w data Hv Hl).
  unfold store_steps. rewrite Ho, Hw, Hf. cbn [fst snd]. unfold state_after.
  cbn [snd events files]. rewrite drop_app_length. split_and!; [| |done].
  - unfold replay, watermark_events. simpl.
    by rewrite lookup_insert_eq, insert_insert_eq.
  - rewrite replay_other; [done|]. rewrite touches_cons, touches_app.
    intros [H|[H|H]]; [done| |].
    + by apply watermark_events_flag in H.
    + by apply failure_events_untouched in H.
Qed.

Lemma unopened_flag_leaves_new_watermark_witness :
  let denied := Exn "PermissionError" "[Errno 13] Permission denied: 'upload_complete.flag'" in
  let env := mkEnv (λ p, if String.eqb p flag_path then Some denied else None)
               (λ _, WriteOk) (λ _, None) in
  let req := Sample.upload "Logo.PNG" Sample.three_bytes in
  let w' := run (handle_upload env req) Sample.empty_world in
  files w' = <[watermark_path := Sample.three_bytes]> (files Sample.empty_world)
  ∧ files w' !! flag_path = files Sample.empty_world !! flag_path
  ∧ run_events (handle_upload env req) Sample.empty_world
    = EvParse :: watermark_events Sample.three_bytes ++ failure_events denied.
Proof.
  apply (unopened_flag_leaves_new_watermark
           (mkEnv (λ p, if String.eqb p flag_path
                        then Some (Exn "PermissionError"
                                     "[Errno 13] Permission denied: 'upload_complete.flag'")
                        else None)
              (λ _, WriteOk) (λ _, None))
           (Sample.upload "Logo.PNG" Sample.three_bytes) Sample.empty_world
           Sample.three_bytes
           (Exn "PermissionError" "[Errno 13] Permission denied: 'upload_complete.flag'")).
  - apply sample_upload_valid.
  - vm_compute. discriminate.
  - reflexivity.
  - reflexivity.
  - reflexivity.
Defined.

(** ** Probing and start-up in general *)

Lemma find_available_port_unfold net start n :
  find_available_port net start n
  = match probe_loop net (seqZ start n) with
    | Some r => r
    | None =>
        inl (Exn "RuntimeError"
               ("Could not find available port in range " +:+ PyStr.str_of_int start
                +:+ "-" +:+ PyStr.str_of_int (start + n)))
    end.
Proof.
  unfold find_available_port, py_range. by replace (start + n - start) with n by lia.
Qed.

Lemma find_available_port_spec net start n p :
  find_available_port net start n = inr p
  ↔ start ≤ p < start + n ∧ probe_bind net p = BindOk
    ∧ ∀ q, start ≤ q < p → probe_bind net q = BindOSError.
Proof.
  rewrite find_available_port_unfold.
  pose proof (probe_loop_range net start n) as H.
  destruct (probe_loop net (seqZ start n)) as [[e|p']|].
  - destruct H as (p' & Hp' & Hb' & Hall'). split; [discriminate|].
    intros (Hp & Hb & Hall). exfalso.
    destruct (Z.lt_trichotomy p p') as [Hlt|[->|Hgt]].
    + rewrite Hall' in Hb by lia. discriminate Hb.
    + rewrite Hb' in Hb. discriminate Hb.
    + rewrite Hall in Hb' by lia. discriminate Hb'.
  - destruct H as (Hp' & Hb' & Hall'). split.
    + by intros [= <-].
    + intros (Hp & Hb & Hall). f_equal.
      destruct (Z.lt_trichotomy p p') as [Hlt|[->|Hgt]]; [|done|].
      * rewrite Hall' in Hb by lia. discriminate Hb.
      * rewrite Hall in Hb' by lia. discriminate Hb'.
  - split; [discriminate|]. intros (Hp & Hb & _). rewrite H in Hb by lia. discriminate Hb.
Qed.

(** X17. For any first port and any number of attempts, the port
    [find_available_port] returns is the lowest port of the range that
    binds, every port below it having raised OSError; and it returns a port
    whenever there is such a one. *)
Theorem first_free_port_is_returned net start n p :
  find_available_port net start n = inr p
  ↔ start ≤ p < start + n ∧ probe_bind net p = BindOk
    ∧ ∀ q, start ≤ q < p → probe_bind net q = BindOSError.
Proof. apply find_available_port_spec. Qed.

(** X18. An exception other than OSError raised by a bind ends the probing
    at once and leaves [find_available_port]: the ports after it are not
    tried, free or not. *)
Theorem other_bind_error_ends_probing net start n p e :
  start ≤ p < start + n →
  probe_bind net p = BindRaises e →
  (∀ q, start ≤ q < p → probe_bind net q = BindOSError) →
  find_available_port net start n = inl e.
Proof.
  intros Hp Hb Hall. rewrite find_available_port_unfold.
  pose proof (probe_loop_range net start n) as H.
  destruct (probe_loop net (seqZ start n)) as [[e'|p']|].
  - destruct H as (p' & Hp' & Hb' & Hall'). f_equal.
    destruct (Z.lt_trichotomy p p') as [Hlt|[->|Hgt]].
    + rewrite Hall' in Hb by lia. discriminate Hb.
    + rewrite Hb' in Hb. by injection Hb.
    + rewrite Hall in Hb' by lia. discriminate Hb'.
  - destruct H as (Hp' & Hb' & Hall'). exfalso.
    destruct (Z.lt_trichotomy p p') as [Hlt|[->|Hgt]].
    + rewrite Hall' in Hb by lia. discriminate Hb.
    + rewrite Hb' in Hb. discriminate Hb.
    + rewrite Hall in Hb' by lia. discriminate Hb'.
  - rewrite H in Hb by lia. discriminate Hb.
Qed.

Lemma other_bind_error_ends_probing_witness :
  let overflow := Exn "OverflowError" "bind(): port must be 0-65535." in
  let net := mkNet (λ p, if p =? 65534 then BindOSError
                         else if p =? 65535 then BindOSError
                         else if p =? 65536 then BindRaises overflow
                         else BindOk)
               (λ _, None) in
  find_available_port net 65534 100 = inl overflow.
Proof.
  apply (other_bind_error_ends_probing
           (mkNet (λ p, if p =? 65534 then BindOSError
                        else if p =? 65535 then BindOSError
                        else if p =? 65536
                             then BindRaises
                                    (Exn "OverflowError" "bind(): port must be 0-65535.")
                        else BindOk)
              (λ _, None))
           65534 100 65536 (Exn "OverflowError" "bind(): port must be 0-65535.")).
  - lia.
  - reflexivity.
  - intros q Hq. assert (q = 65534 ∨ q = 65535) as [-> | ->] by lia; reflexivity.
Defined.

(** X19. When every port of the range raises OSError, and so also when the
    number of attempts is zero or negative, [find_available_port] raises a
    RuntimeError whose text names the first port and the first port plus
    the number of attempts. *)
Theorem exhausted_range_raises net start n :
  (∀ q, start ≤ q < start + n → probe_bind net q = BindOSError) →
  find_available_port net start n
  = inl (Exn "RuntimeError"
           ("Could not find available port in range " +:+ PyStr.str_of_int start
            +:+ "-" +:+ PyStr.str_of_int (start + n))).
Proof.
  intros Hall. rewrite find_available_port_unfold.
  pose proof (probe_loop_range net start n) as H.
  destruct (probe_loop net (seqZ start n)) as [[e'|p']|]; [| |done].
  - destruct H as (p' & Hp' & Hb' & _). rewrite Hall in Hb' by lia. discriminate Hb'.
  - destruct H as (Hp' & Hb' & _). rewrite Hall in Hb' by lia. discriminate Hb'.
Qed.

Lemma exhausted_range_raises_witness :
  find_available_port (mkNet (λ _, BindOk) (λ _, None)) 9000 0
  = inl (Exn "RuntimeError"
           ("Could not find available port in range " +:+ PyStr.str_of_int 9000
            +:+ "-" +:+ PyStr.str_of_int (9000 + 0))).
Proof.
  apply (exhausted_range_raises (mkNet (λ _, BindOk) (λ _, None)) 9000 0).
  intros q Hq. lia.
Defined.

(** X20. [run_server] only ever serves on a port the server socket could be
    bound to: the port it was given, or else the first of 8080..8179 that
    the probe could bind. *)
Theorem served_port_was_bound net port q printed :
  run_server net port = Serving q printed →
  server_bind net q = None
  ∧ (port = Some q
     ∨ (port = None ∧ 8080 ≤ q < 8180 ∧ probe_bind net q = BindOk
        ∧ ∀ r, 8080 ≤ r < q → probe_bind net r = BindOSError)).
Proof.
  unfold run_server. destruct port as [p|].
  - destruct (server_bind net p) eqn:E; [discriminate|]. intros [= <- _]. by split; [|left].
  - destruct (find_available_port net 8080 100) as [e|p] eqn:F; [discriminate|].
    destruct (server_bind net p) eqn:E; [discriminate|]. intros [= <- _].
    split; [done|]. right. split; [done|].
    by apply (find_available_port_spec net 8080 100 p) in F.
Qed.

Lemma served_port_was_bound_witness :
  let net := mkNet (λ p, if p <? 8083 then BindOSError else BindOk) (λ _, None) in
  server_bind net 8083 = None
  ∧ (@None Z = Some 8083
     ∨ (@None Z = None ∧ 8080 ≤ 8083 < 8180 ∧ probe_bind net 8083 = BindOk
        ∧ ∀ r, 8080 ≤ r < 8083 → probe_bind net r = BindOSError)).
Proof.
  apply (served_port_was_bound
           (mkNet (λ p, if p <? 8083 then BindOSError else BindOk) (λ _, None))
           None 8083
           ["MediaScreen upload server starting on port 8083";
            "Access the upload interface at: http://localhost:8083";
            "Press Ctrl+C to stop the server"]).
  reflexivity.
Defined.

(** X21. When the port the probe found cannot be bound by the server after
    all, [run_server] prints the error and exits with code 1: the next port
    is not tried. *)
Theorem lost_port_is_not_retried net p e :
  8080 ≤ p < 8180 →
  probe_bind net p = BindOk →
  (∀ q, 8080 ≤ q < p → probe_bind net q = BindOSError) →
  server_bind net p = Some e →
  run_server net None = Exits 1 ["Server error: " +:+ exn_text e].
Proof.
  intros Hp Hb Hall Hs. unfold run_server.
  assert (find_available_port net 8080 100 = inr p) as ->.
  { by apply find_available_port_spec. }
  by rewrite Hs.
Qed.

Lemma lost_port_is_not_retried_witness :
  let in_use := Exn "OSError" "[Errno 98] Address already in use" in
  run_server (mkNet (λ _, BindOk) (λ p, if p =? 8080 then Some in_use else None)) None
  = Exits 1 ["Server error: " +:+ exn_text in_use].
Proof.
  apply (lost_port_is_not_retried
           (mkNet (λ _, BindOk)
              (λ p, if p =? 8080
                    then Some (Exn "OSError" "[Errno 98] Address already in use")
                    else None))
           8080 (Exn "OSError" "[Errno 98] Address already in use")).
  - lia.
  - reflexivity.
  - intros q Hq. lia.
  - reflexivity.
Defined.

(** X22. Allowing more attempts never changes the port found: a port
    returned within [n] attempts is the port returned within any larger
    number of them. *)
Theorem more_attempts_keep_port net start n m p :
  find_available_port net start n = inr p →
  n ≤ m →
  find_available_port net start m = inr p.
Proof.
  intros H Hnm. apply find_available_port_spec in H as (Hp & Hb & Hall).
  apply find_available_port_spec. split; [lia|]. by split.
Qed.

Lemma more_attempts_keep_port_witness :
  let net := mkNet (λ p, if p <? 8082 then BindOSError else BindOk) (λ _, None) in
  find_available_port net 8080 100 = inr 8082.
Proof.
  apply (more_attempts_keep_port
           (mkNet (λ p, if p <? 8082 then BindOSError else BindOk) (λ _, None))
           8080 3 100 8082).
  - reflexivity.
  - lia.
Defined.
